(** * Net_monitor.py: the polling engine, its downtime state machine,
      the shared log and the auto-save scheduler

    A shallow embedding of [src/Net_monitor.py].  Python objects live in a
    store ([objects]) and are named by references, so that the aliasing of
    [self] with [self.app.monitors[...]] is the one the program has.  Code
    that can raise is written in a state-and-exception monad whose state
    survives a raise, as the attributes of a Python object do.  The window
    toolkit is left out, except for the text of the packet-loss label, which
    is set at the place where the program schedules its update. *)

From Stdlib Require Import ZArith Bool Lia Sorting.Sorted.
From Stdlib Require Import Strings.String Strings.Ascii.
From Stdlib Require Import Floats.PrimFloat Floats.FloatOps Floats.SpecFloat.
From Stdlib Require Import Numbers.Cyclic.Int63.Uint63.
From stdpp Require Import base option list gmap strings pretty.

Local Open Scope string_scope.
Local Open Scope list_scope.
Local Open Scope Z_scope.

(** ** Constants (lines 13-16) *)

Definition AUTO_SAVE_INTERVAL : Z := 86400.
Definition SETTINGS_FILE : string := "settings.json".

(** ** Strings *)

Module Str.

(** Python's [needle in hay] on [str]. *)
Fixpoint contains (needle hay : string) : bool :=
  String.prefix needle hay ||
  match hay with
  | EmptyString => false
  | String _ hay' => contains needle hay'
  end.

(** Python's [sep.join(parts)]. *)
Definition join (sep : string) (parts : list string) : string :=
  String.concat sep parts.

(** [''.join(parts)]. *)
Definition cat (parts : list string) : string := join "" parts.

(** A string is true in a condition when it is not empty. *)
Definition truthy (s : string) : bool :=
  match s with EmptyString => false | String _ _ => true end.

(** [f"{n:02}"] and the [%H], [%M], [%S], [%d], [%m] fields of [strftime]
    for a number that is not negative. *)
Definition pad2 (n : Z) : string :=
  if n <? 10 then "0" +:+ pretty n else pretty n.

End Str.

(** ** [datetime] and [timedelta]

    A naive [datetime] is the record of its fields.  The difference of two of
    them follows CPython's [datetime.py]: through the proleptic Gregorian
    ordinal of the date. *)

Record datetime := mk_datetime {
  year : Z; month : Z; day : Z;
  hour : Z; minute : Z; second : Z; microsecond : Z
}.

Module DT.

Definition is_leap (y : Z) : bool :=
  (y mod 4 =? 0) && (negb (y mod 100 =? 0) || (y mod 400 =? 0)).

Definition days_before_year (y : Z) : Z :=
  let p := y - 1 in p * 365 + p / 4 - p / 100 + p / 400.

Definition days_in_month (y m : Z) : Z :=
  if m =? 2 then (if is_leap y then 29 else 28)
  else if (m =? 4) || (m =? 6) || (m =? 9) || (m =? 11) then 30 else 31.

Definition days_before_month (y m : Z) : Z :=
  fold_right Z.add 0
    (map (days_in_month y) (map Z.of_nat (seq 1 (Z.to_nat (m - 1))))).

Definition toordinal (d : datetime) : Z :=
  days_before_year (year d) + days_before_month (year d) (month d) + day d.

(** The instant in microseconds from the start of day 0. *)
Definition micros (d : datetime) : Z :=
  ((toordinal d * 86400 + hour d * 3600 + minute d * 60 + second d)
     * 1000000) + microsecond d.

(** [(a - b)] as a [timedelta], held as its total of microseconds. *)
Definition sub (a b : datetime) : Z := micros a - micros b.

(** [td.total_seconds() >= n] for an integer [n].  [total_seconds] is the
    correctly rounded quotient of the microseconds by [10**6]; [n] is a
    float, rounding is monotone, and no quotient below [n] is within half
    an ulp of it for the [n] at hand, so the test is the one on integers. *)
Definition total_seconds_ge (td n : Z) : bool := n * 1000000 <=? td.

Definition strftime_HMS (d : datetime) : string :=
  Str.pad2 (hour d) +:+ ":" +:+ Str.pad2 (minute d) +:+ ":" +:+ Str.pad2 (second d).

Definition strftime_dm (d : datetime) : string :=
  Str.pad2 (day d) +:+ "." +:+ Str.pad2 (month d).

(** [strftime('%Y%m%d_%H%M%S')]. *)
Definition strftime_stamp (d : datetime) : string :=
  pretty (year d) +:+ Str.pad2 (month d) +:+ Str.pad2 (day d) +:+ "_" +:+
  Str.pad2 (hour d) +:+ Str.pad2 (minute d) +:+ Str.pad2 (second d).

Definition ltb (a b : datetime) : bool := micros a <? micros b.

End DT.

(** ** Floats: the loss percentage and its [.2f] rendering *)

Module Flt.

(** [float(n)] for a Python [int] in the range of a machine word. *)
Definition of_int (n : Z) : float := of_uint63 (Uint63.of_Z n).

(** The nearest integer to [n / d] for [0 < d], ties to the even one. *)
Definition round_half_even (n d : Z) : Z :=
  let q := n / d in
  let r := n mod d in
  match 2 * r ?= d with
  | Lt => q
  | Gt => q + 1
  | Eq => if Z.even q then q else q + 1
  end.

(** The number of hundredths nearest to the exact value [m * 2^e]. *)
Definition hundredths (m : positive) (e : Z) : Z :=
  if 0 <=? e then Z.pos m * 2 ^ e * 100
  else round_half_even (Z.pos m * 100) (2 ^ (- e)).

Definition sign_text (s : bool) : string := if s then "-" else "".

(** [f"{x:.2f}"]: the exact binary value, correctly rounded to two
    decimals. *)
Definition format_2f (x : float) : string :=
  match Prim2SF x with
  | S754_nan => "nan"
  | S754_infinity s => sign_text s +:+ "inf"
  | S754_zero s => sign_text s +:+ "0.00"
  | S754_finite s m e =>
      let c := hundredths m e in
      sign_text s +:+ pretty (c / 100) +:+ "." +:+ Str.pad2 (c mod 100)
  end.

End Flt.


(** ** Exceptions, and the values the environment hands to the program *)

Inductive exn :=
| AttributeError (msg : string)
| ValueError (msg : string)
| ZeroDivisionError (msg : string)
| OSError (msg : string).

(** [str(e)] *)
Definition exn_str (e : exn) : string :=
  match e with
  | AttributeError msg | ValueError msg | ZeroDivisionError msg | OSError msg => msg
  end.

(** What lines 382-385 obtain in one cycle: [subprocess.run] raises, or it
    returns and the decoded output and [datetime.now()] are read. *)
Inductive ping :=
| PingRaises (e : exn)
| PingOutput (out : string) (ts : datetime).

(** ** Objects *)

(** A reference to a [DeviceMonitor] object. *)
Definition ref := nat.

(** An element of [full_log]: the text and its tag ([None] or ['error']). *)
Definition log_item : Type := string * option string.

(** The attributes of a [DeviceMonitor].  [downtime_summary] and
    [is_monitoring] are not set by [__init__] (lines 329-336): [None] is an
    attribute the object does not have. *)
Record DeviceMonitor := mk_monitor {
  ip : string;
  name : string;
  availability : list Z;
  is_down : bool;
  current_downtime_start : option datetime;
  downtime_summary : option (list (option datetime * datetime));
  is_monitoring : option bool;
  packet_loss_label : string
}.

Definition with_name (v : string) (m : DeviceMonitor) : DeviceMonitor :=
  mk_monitor (ip m) v (availability m) (is_down m) (current_downtime_start m)
    (downtime_summary m) (is_monitoring m) (packet_loss_label m).

Definition with_availability (v : list Z) (m : DeviceMonitor) : DeviceMonitor :=
  mk_monitor (ip m) (name m) v (is_down m) (current_downtime_start m)
    (downtime_summary m) (is_monitoring m) (packet_loss_label m).

Definition with_is_down (v : bool) (m : DeviceMonitor) : DeviceMonitor :=
  mk_monitor (ip m) (name m) (availability m) v (current_downtime_start m)
    (downtime_summary m) (is_monitoring m) (packet_loss_label m).

Definition with_current_downtime_start (v : option datetime) (m : DeviceMonitor)
  : DeviceMonitor :=
  mk_monitor (ip m) (name m) (availability m) (is_down m) v
    (downtime_summary m) (is_monitoring m) (packet_loss_label m).

Definition with_downtime_summary (v : option (list (option datetime * datetime)))
  (m : DeviceMonitor) : DeviceMonitor :=
  mk_monitor (ip m) (name m) (availability m) (is_down m) (current_downtime_start m)
    v (is_monitoring m) (packet_loss_label m).

Definition with_is_monitoring (v : option bool) (m : DeviceMonitor) : DeviceMonitor :=
  mk_monitor (ip m) (name m) (availability m) (is_down m) (current_downtime_start m)
    (downtime_summary m) v (packet_loss_label m).

Definition with_packet_loss_label (v : string) (m : DeviceMonitor) : DeviceMonitor :=
  mk_monitor (ip m) (name m) (availability m) (is_down m) (current_downtime_start m)
    (downtime_summary m) (is_monitoring m) v.

(** [DeviceMonitor.__init__] (lines 329-336, 357). *)
Definition DeviceMonitor_init (ip0 name0 : string) : DeviceMonitor :=
  mk_monitor ip0 name0 [] false None None None "Потеря пакетов: 0%".

#[global] Instance DeviceMonitor_inhabited : Inhabited DeviceMonitor :=
  populate (DeviceMonitor_init "" "").

(** What a [with open(fn, 'w')] block does to the disk: it writes a text,
    or the settings, or, when an exception is raised after [open] returned,
    it leaves the file it created or emptied with whatever part of the data
    reached it. *)
Inductive file_write :=
| WriteText (fn data : string)
| WriteSettings (fn : string) (language : string) (devices : gmap string string)
| WriteBroken (fn : string).

(** The [NetMonitorApp] object (lines 61-71), the store of the
    [DeviceMonitor]s it refers to, and what the process has done outside its
    memory: the monitor threads it started, the timers pending, the lines
    sent to the error log and the files written. *)
Record App := mk_app {
  objects : gmap ref DeviceMonitor;
  monitors : list ref;
  full_log : list log_item;
  auto_save_timer : option nat;
  start_time : option datetime;
  timer_running : bool;
  last_save_time : option datetime;
  settings_language : string;
  settings_devices : gmap string string;
  lang : gmap string string;
  timer_label : string;
  threads : list ref;
  pending_timers : list nat;
  timers_made : nat;
  error_log : list string;
  disk : list file_write
}.

Definition with_objects (v : gmap ref DeviceMonitor) (a : App) : App :=
  mk_app v (monitors a) (full_log a) (auto_save_timer a) (start_time a)
    (timer_running a) (last_save_time a) (settings_language a) (settings_devices a)
    (lang a) (timer_label a) (threads a) (pending_timers a) (timers_made a)
    (error_log a) (disk a).

Definition with_monitors (v : list ref) (a : App) : App :=
  mk_app (objects a) v (full_log a) (auto_save_timer a) (start_time a)
    (timer_running a) (last_save_time a) (settings_language a) (settings_devices a)
    (lang a) (timer_label a) (threads a) (pending_timers a) (timers_made a)
    (error_log a) (disk a).

Definition with_full_log (v : list log_item) (a : App) : App :=
  mk_app (objects a) (monitors a) v (auto_save_timer a) (start_time a)
    (timer_running a) (last_save_time a) (settings_language a) (settings_devices a)
    (lang a) (timer_label a) (threads a) (pending_timers a) (timers_made a)
    (error_log a) (disk a).

Definition with_auto_save_timer (v : option nat) (a : App) : App :=
  mk_app (objects a) (monitors a) (full_log a) v (start_time a)
    (timer_running a) (last_save_time a) (settings_language a) (settings_devices a)
    (lang a) (timer_label a) (threads a) (pending_timers a) (timers_made a)
    (error_log a) (disk a).

Definition with_start_time (v : option datetime) (a : App) : App :=
  mk_app (objects a) (monitors a) (full_log a) (auto_save_timer a) v
    (timer_running a) (last_save_time a) (settings_language a) (settings_devices a)
    (lang a) (timer_label a) (threads a) (pending_timers a) (timers_made a)
    (error_log a) (disk a).

Definition with_timer_running (v : bool) (a : App) : App :=
  mk_app (objects a) (monitors a) (full_log a) (auto_save_timer a) (start_time a)
    v (last_save_time a) (settings_language a) (settings_devices a)
    (lang a) (timer_label a) (threads a) (pending_timers a) (timers_made a)
    (error_log a) (disk a).

Definition with_last_save_time (v : option datetime) (a : App) : App :=
  mk_app (objects a) (monitors a) (full_log a) (auto_save_timer a) (start_time a)
    (timer_running a) v (settings_language a) (settings_devices a)
    (lang a) (timer_label a) (threads a) (pending_timers a) (timers_made a)
    (error_log a) (disk a).

Definition with_settings_language (v : string) (a : App) : App :=
  mk_app (objects a) (monitors a) (full_log a) (auto_save_timer a) (start_time a)
    (timer_running a) (last_save_time a) v (settings_devices a)
    (lang a) (timer_label a) (threads a) (pending_timers a) (timers_made a)
    (error_log a) (disk a).

Definition with_settings_devices (v : gmap string string) (a : App) : App :=
  mk_app (objects a) (monitors a) (full_log a) (auto_save_timer a) (start_time a)
    (timer_running a) (last_save_time a) (settings_language a) v
    (lang a) (timer_label a) (threads a) (pending_timers a) (timers_made a)
    (error_log a) (disk a).

Definition with_timer_label (v : string) (a : App) : App :=
  mk_app (objects a) (monitors a) (full_log a) (auto_save_timer a) (start_time a)
    (timer_running a) (last_save_time a) (settings_language a) (settings_devices a)
    (lang a) v (threads a) (pending_timers a) (timers_made a)
    (error_log a) (disk a).

Definition with_threads (v : list ref) (a : App) : App :=
  mk_app (objects a) (monitors a) (full_log a) (auto_save_timer a) (start_time a)
    (timer_running a) (last_save_time a) (settings_language a) (settings_devices a)
    (lang a) (timer_label a) v (pending_timers a) (timers_made a)
    (error_log a) (disk a).

Definition with_pending_timers (v : list nat) (a : App) : App :=
  mk_app (objects a) (monitors a) (full_log a) (auto_save_timer a) (start_time a)
    (timer_running a) (last_save_time a) (settings_language a) (settings_devices a)
    (lang a) (timer_label a) (threads a) v (timers_made a)
    (error_log a) (disk a).

Definition with_timers_made (v : nat) (a : App) : App :=
  mk_app (objects a) (monitors a) (full_log a) (auto_save_timer a) (start_time a)
    (timer_running a) (last_save_time a) (settings_language a) (settings_devices a)
    (lang a) (timer_label a) (threads a) (pending_timers a) v
    (error_log a) (disk a).

Definition with_error_log (v : list string) (a : App) : App :=
  mk_app (objects a) (monitors a) (full_log a) (auto_save_timer a) (start_time a)
    (timer_running a) (last_save_time a) (settings_language a) (settings_devices a)
    (lang a) (timer_label a) (threads a) (pending_timers a) (timers_made a)
    v (disk a).

Definition with_disk (v : list file_write) (a : App) : App :=
  mk_app (objects a) (monitors a) (full_log a) (auto_save_timer a) (start_time a)
    (timer_running a) (last_save_time a) (settings_language a) (settings_devices a)
    (lang a) (timer_label a) (threads a) (pending_timers a) (timers_made a)
    (error_log a) v.

(** ** The monad of the program: state, and exceptions that keep the state *)

Inductive result (A : Type) :=
| Ok (a : A)
| Raise (e : exn).
Arguments Ok {A} a.
Arguments Raise {A} e.

Definition M (A : Type) : Type := App -> result A * App.

#[global] Instance M_ret : MRet M := fun A (a : A) (s : App) => (Ok a, s).

#[global] Instance M_bind : MBind M :=
  fun A B (k : A -> M B) (c : M A) (s : App) =>
    match c s with
    | (Ok a, s') => k a s'
    | (Raise e, s') => (Raise e, s')
    end.

Definition raise {A} (e : exn) : M A := fun s => (Raise e, s).

(** [try: body except Exception as e: handler(e)] *)
Definition try_except {A} (body : M A) (handler : exn -> M A) : M A :=
  fun s =>
    match body s with
    | (Ok a, s') => (Ok a, s')
    | (Raise e, s') => handler e s'
    end.

Definition gets {A} (f : App -> A) : M A := fun s => (Ok (f s), s).
Definition modify (f : App -> App) : M unit := fun s => (Ok tt, f s).

(** The state a computation leaves, whatever its result. *)
Definition exec {A} (c : M A) (s : App) : App := snd (c s).

(** [for x in xs: body(x)] *)
Fixpoint for_each {A} (xs : list A) (body : A -> M unit) : M unit :=
  match xs with
  | [] => mret tt
  | x :: xs' => body x ;; for_each xs' body
  end.

(** Reading and writing an object through a reference.  Objects are never
    freed, so a reference the program holds is in the store. *)
Definition obj (r : ref) : M DeviceMonitor := gets (fun s => objects s !!! r).

Definition set_obj (r : ref) (f : DeviceMonitor -> DeviceMonitor) : M unit :=
  modify (fun s => with_objects (alter f r (objects s)) s).

(** [log_error] (lines 28-30): one line more in the error log. *)
Definition log_error (msg : string) : M unit :=
  modify (fun s => with_error_log (error_log s ++ [msg]) s).

(** ** [DeviceMonitor] *)

(** Line 384: the reply is lost when the output of [ping] says so, in
    either of two languages. *)
Definition is_lost (out : string) : bool :=
  Str.contains "100% loss" out || Str.contains "100% потерь" out.

(** [sum(xs)] *)
Definition sum_Z (xs : list Z) : Z := fold_right Z.add 0 xs.

(** [len(xs)] *)
Definition len {A} (xs : list A) : Z := Z.of_nat (length xs).

(** [xs.index(x)]: the first position of [x]. *)
Fixpoint list_index (x : ref) (xs : list ref) : option nat :=
  match xs with
  | [] => None
  | y :: ys => if decide (y = x) then Some 0%nat else S <$> list_index x ys
  end.

(** Line 410, on a buffer that is not empty. *)
Definition loss_pct (buf : list Z) : float :=
  ((1 - Flt.of_int (sum_Z buf) / Flt.of_int (len buf)) * 100)%float.

(** The text of line 411. *)
Definition loss_label (buf : list Z) : string :=
  "Потеря пакетов: " +:+ Flt.format_2f (loss_pct buf) +:+ "%".

(** Lines 398-400. *)
Definition log_entry (nm addr : string) (lost : bool) (ts : datetime)
  : list log_item :=
  [ ("[" +:+ DT.strftime_HMS ts +:+ "] ", None);
    ("Обмен с " +:+ nm +:+ "[" +:+ addr +:+ "]" +:+ String (ascii_of_nat 10) "", None);
    (if lost then "Ответ не получен" +:+ String (ascii_of_nat 10) ""
     else "Ответ получен" +:+ String (ascii_of_nat 10) "",
     if lost then Some "error" else None) ].

(** [start_monitoring] (lines 363-366): the flag, and a thread that runs
    [_monitor] on this object. *)
Definition start_monitoring (self : ref) : M unit :=
  set_obj self (with_is_monitoring (Some true)) ;;
  modify (fun s => with_threads (threads s ++ [self]) s).

(** [stop_monitoring] (lines 368-370). *)
Definition stop_monitoring (self : ref) : M unit :=
  set_obj self (with_is_monitoring (Some false)).

(** [reset] (lines 372-376); the drawing of [_update_ui] is left out. *)
Definition reset (self : ref) : M unit :=
  set_obj self (with_availability []) ;;
  set_obj self (with_packet_loss_label "Потеря пакетов: 0%").

(** Lines 382-385 against the answer of the environment. *)
Definition run_ping (p : ping) : M (string * datetime) :=
  match p with
  | PingRaises e => raise e
  | PingOutput out ts => mret (out, ts)
  end.

(** The body of the [try] of [_monitor] (lines 382-413).  Its result is the
    sample it appended to the buffer: it has one only if it ran to its end.
    The copy of the entry to the log window (lines 403-404), the drawing of
    line 412 and the sleep of line 413 are left out. *)
Definition monitor_try (self : ref) (p : ping) : M Z :=
  '(out, ts) ← run_ping p ;
  let lost := is_lost out in
  let status := if lost then 0 else 1 in
  me ← obj self ;
  (if lost && negb (is_down me) then
     set_obj self (with_is_down true) ;;
     set_obj self (with_current_downtime_start (Some ts))
   else if negb lost && is_down me then
     set_obj self (with_is_down false) ;;
     ms ← gets monitors ;
     i ← match list_index self ms with
         | Some i => mret i
         | None => raise (ValueError "list.index(x): x not in list")
         end ;
     let target := default self (ms !! i) in
     t ← obj target ;
     match downtime_summary t with
     | None =>
         raise (AttributeError
                  "'DeviceMonitor' object has no attribute 'downtime_summary'")
     | Some recorded =>
         me' ← obj self ;
         set_obj target
           (with_downtime_summary
              (Some (recorded ++ [(current_downtime_start me', ts)])))
     end ;;
     set_obj self (with_current_downtime_start None)
   else mret tt) ;;
  me ← obj self ;
  modify (fun s => with_full_log (full_log s ++ log_entry (name me) (ip me) lost ts) s) ;;
  set_obj self (fun m => with_availability (availability m ++ [status]) m) ;;
  me ← obj self ;
  (if 720 <? len (availability me)
   then set_obj self (fun m => with_availability (tail (availability m)) m)
   else mret tt) ;;
  me ← obj self ;
  (if len (availability me) =? 0
   then raise (ZeroDivisionError "division by zero")
   else mret tt) ;;
  set_obj self (with_packet_loss_label (loss_label (availability me))) ;;
  mret status.

(** One turn of the [while] of [_monitor] once its condition held: the
    [try] and its [except] (lines 381-415).  The result is the sample
    appended, [None] when the [except] clause ran. *)
Definition monitor_cycle (self : ref) (p : ping) : M (option Z) :=
  try_except (status ← monitor_try self p ; mret (Some status))
    (fun e =>
       me ← obj self ;
       log_error ("Ошибка мониторинга " +:+ ip me +:+ ": " +:+ exn_str e) ;;
       mret None).

(** What a monitor thread does at the head of its loop: it leaves, or takes
    one more turn. *)
Inductive turn :=
| Exits
| Continues (sample : option Z).

(** Line 380 and the turn that follows it: the thread leaves the loop when
    the flag is off. *)
Definition monitor_turn (self : ref) (p : ping) : M turn :=
  me ← obj self ;
  match is_monitoring me with
  | None =>
      raise (AttributeError
               "'DeviceMonitor' object has no attribute 'is_monitoring'")
  | Some false => mret Exits
  | Some true => sample ← monitor_cycle self p ; mret (Continues sample)
  end.

(** [cons] of a sample, if there is one. *)
Definition add_sample (sample : option Z) (rest : list Z) : list Z :=
  match sample with
  | Some x => x :: rest
  | None => rest
  end.

(** [_monitor] (lines 378-415) by itself, against the answers the
    environment gives to its pings, for as long as there are answers.  The
    result lists the samples appended, the oldest first. *)
Fixpoint _monitor (self : ref) (ps : list ping) : M (list Z) :=
  match ps with
  | [] => mret []
  | p :: ps' =>
      t ← monitor_turn self p ;
      match t with
      | Exits => mret []
      | Continues sample =>
          rest ← _monitor self ps' ; mret (add_sample sample rest)
      end
  end.

(** [get_downtime_summary] (lines 434-442). *)
Definition closed_line (nm : string) (start end_ : datetime) : string :=
  "С " +:+ DT.strftime_HMS start +:+ " по " +:+ DT.strftime_HMS end_ +:+ " " +:+
  DT.strftime_dm start +:+ ": " +:+ nm.

Definition ongoing_line (nm : string) (d : datetime) : string :=
  "С " +:+ DT.strftime_HMS d +:+ " по наст. время " +:+ DT.strftime_dm d +:+ ": " +:+ nm.

Fixpoint closed_lines (nm : string) (ivs : list (option datetime * datetime))
  : M (list string) :=
  match ivs with
  | [] => mret []
  | (Some start, end_) :: rest =>
      ls ← closed_lines nm rest ; mret (closed_line nm start end_ :: ls)
  | (None, _) :: _ =>
      raise (AttributeError "'NoneType' object has no attribute 'strftime'")
  end.

Definition get_downtime_summary (self : ref) : M (list string) :=
  me ← obj self ;
  lines ← closed_lines (name me) (default [] (downtime_summary me)) ;
  me ← obj self ;
  match is_down me, current_downtime_start me with
  | true, Some d => mret (lines ++ [ongoing_line (name me) d])
  | _, _ => mret lines
  end.

(** ** [NetMonitorApp] *)

(** [DeviceMonitor(frame, ip, name, self)]: a new object in the store. *)
Definition new_monitor (ip0 name0 : string) : M ref :=
  r ← gets (fun s => fresh (dom (objects s))) ;
  modify (fun s => with_objects (<[r := DeviceMonitor_init ip0 name0]> (objects s)) s) ;;
  mret r.

(** What a write to a file meets: [None] when it succeeds; otherwise the
    exception raised, and whether [open(fn, 'w')] had returned before it,
    as it has when the write itself or the flush of [close] raises. *)
Record io_error := mk_io_error { io_exn : exn; io_opened : bool }.

Definition io_outcome := option io_error.

(** What a failed write leaves on the disk. *)
Definition broken_write (fn : string) (e : io_error) : list file_write :=
  if io_opened e then [WriteBroken fn] else [].

(** [_save_json] (lines 93-99) on the settings. *)
Definition _save_json (path : string) (io : io_outcome) : M unit :=
  try_except
    (match io with
     | Some e =>
         modify (fun s => with_disk (disk s ++ broken_write path e) s) ;;
         raise (io_exn e)
     | None =>
         modify (fun s =>
           with_disk (disk s ++ [WriteSettings path (settings_language s)
                                   (settings_devices s)]) s)
     end)
    (fun e => log_error ("Ошибка сохранения " +:+ path +:+ ": " +:+ exn_str e)).

(** [__init__] and [_init_device_tiles] (lines 59-72, 133-142) for the
    settings read at start: a monitor for each device, in the order of the
    settings (their keys are distinct, as those of a dictionary are). *)
Definition empty_app (language : string) (texts : gmap string string) : App :=
  mk_app ∅ [] [] None None false None language ∅ texts "0:00:00:00" [] [] 0 [] [].

Definition _init_device_tiles (devices : list (string * string)) : M unit :=
  for_each devices (fun d =>
    r ← new_monitor (fst d) (snd d) ;
    modify (fun s => with_monitors (monitors s ++ [r]) s)).

Definition App_init (language : string) (texts : gmap string string)
  (devices : list (string * string)) : App :=
  exec (_init_device_tiles devices)
    (with_settings_devices (list_to_map devices) (empty_app language texts)).

(** The values [_save_log] reads from its environment: [datetime.now()] for
    the name of the file, the fate of the write, [datetime.now()] once it is
    written. *)
Record save_env := mk_save_env {
  save_stamp : datetime;
  save_io : io_outcome;
  save_done : datetime
}.

(** [_save_log] (lines 264-279); the message box of [notify] is left out. *)
Definition _save_log (env : save_env) : M bool :=
  try_except
    (let fn := "log_" +:+ DT.strftime_stamp (save_stamp env) +:+ ".txt" in
     data ← gets (fun s => Str.cat (map fst (full_log s))) ;
     match save_io env with
     | Some e =>
         modify (fun s => with_disk (disk s ++ broken_write fn e) s) ;;
         raise (io_exn e)
     | None => modify (fun s => with_disk (disk s ++ [WriteText fn data]) s)
     end ;;
     modify (with_last_save_time (Some (save_done env))) ;;
     mret true)
    (fun e =>
       log_error ("Ошибка сохранения журнала: " +:+ exn_str e) ;; mret false).

(** [threading.Timer(AUTO_SAVE_INTERVAL, job)], kept in [auto_save_timer] and
    started (lines 286-288). *)
Definition arm_timer : M unit :=
  t ← gets timers_made ;
  modify (with_timers_made (S t)) ;;
  modify (with_auto_save_timer (Some t)) ;;
  modify (fun s => with_pending_timers (pending_timers s ++ [t]) s).

(** [job] of [_schedule_auto_save] (lines 283-288): [now] is the
    [datetime.now()] of its condition. *)
Definition job (now : datetime) (env : save_env) : M unit :=
  running ← gets timer_running ;
  last ← gets last_save_time ;
  (if running &&
      match last with
      | Some t => DT.total_seconds_ge (DT.sub now t) AUTO_SAVE_INTERVAL
      | None => false
      end
   then _save_log env ;; mret tt
   else mret tt) ;;
  arm_timer.

(** [auto_save_timer.cancel()] *)
Definition cancel_timer : M unit :=
  t ← gets auto_save_timer ;
  match t with
  | Some t => modify (fun s => with_pending_timers (filter (fun u => u ≠ t) (pending_timers s)) s)
  | None => mret tt
  end.

(** [_start_monitoring] (lines 165-173): [now] is its [datetime.now()], and
    [tick] and [env] what the first call of [job] reads. *)
Definition _start_monitoring (now tick : datetime) (env : save_env) : M unit :=
  running ← gets timer_running ;
  (if negb running then
     modify (with_timer_running true) ;;
     modify (with_start_time (Some now)) ;;
     modify (with_last_save_time (Some now)) ;;
     job tick env
   else mret tt) ;;
  ms ← gets monitors ;
  for_each ms start_monitoring.

(** [_stop_monitoring] (lines 175-182). *)
Definition _stop_monitoring : M unit :=
  running ← gets timer_running ;
  (if (running : bool) then
     modify (with_timer_running false) ;;
     cancel_timer
   else mret tt) ;;
  ms ← gets monitors ;
  for_each ms stop_monitoring.

(** [_reset_all] (lines 184-190). *)
Definition _reset_all : M unit :=
  ms ← gets monitors ;
  for_each ms reset ;;
  modify (with_start_time None) ;;
  modify (with_timer_running false) ;;
  modify (with_timer_label "0:00:00:00").

(** [_add_device] (lines 193-213): [ip_answer] and [name_answer] are what
    the two dialogs return ([None] when closed), [io] the fate of the write
    of the settings. *)
Definition _add_device (ip_answer name_answer : option string) (io : io_outcome)
  : M unit :=
  devices ← gets settings_devices ;
  match ip_answer with
  | None => mret tt
  | Some addr =>
      if negb (Str.truthy addr) || bool_decide (is_Some (devices !! addr)) then mret tt
      else
        match name_answer with
        | None => mret tt
        | Some nm =>
            if negb (Str.truthy nm) then mret tt
            else
              monitor ← new_monitor addr nm ;
              modify (fun s => with_monitors (monitors s ++ [monitor]) s) ;;
              modify (fun s => with_settings_devices (<[addr := nm]> (settings_devices s)) s) ;;
              _save_json SETTINGS_FILE io ;;
              running ← gets timer_running ;
              if (running : bool) then start_monitoring monitor else mret tt
        end
  end.

(** [xs.remove(x)] on [app.monitors]: the first [x] goes, and it is an error
    if there is none. *)
Fixpoint remove_one (x : ref) (xs : list ref) : list ref :=
  match xs with
  | [] => []
  | y :: ys => if decide (y = x) then ys else y :: remove_one x ys
  end.

Definition monitors_remove (m : ref) : M unit :=
  ms ← gets monitors ;
  if bool_decide (m ∈ ms)
  then modify (with_monitors (remove_one m ms))
  else raise (ValueError "list.remove(x): x not in list").

(** [_delete_devices] (lines 215-228): [selected] are the monitors whose
    box is ticked, [confirmed] the answer to the question, [io] the fate of
    the write of the settings. *)
Definition _delete_devices (selected : list ref) (confirmed : bool) (io : io_outcome)
  : M unit :=
  ms ← gets monitors ;
  let to_del := filter (fun m => m ∈ selected) ms in
  match to_del with
  | [] => mret tt
  | _ :: _ =>
      if negb confirmed then mret tt
      else
        for_each to_del (fun m =>
          stop_monitoring m ;;
          monitors_remove m ;;
          me ← obj m ;
          modify (fun s => with_settings_devices (delete (ip me) (settings_devices s)) s)) ;;
        _save_json SETTINGS_FILE io
  end.

(** [_rename_device] (lines 425-432): [answer] is what the dialog returns. *)
Definition _rename_device (self : ref) (answer : option string) (io : io_outcome)
  : M unit :=
  match answer with
  | None => mret tt
  | Some new_name =>
      if Str.truthy new_name then
        set_obj self (with_name new_name) ;;
        me ← obj self ;
        modify (fun s => with_settings_devices (<[ip me := new_name]> (settings_devices s)) s) ;;
        _save_json SETTINGS_FILE io
      else mret tt
  end.

(** [save_and_close] of [_open_settings] (lines 311-315). *)
Definition save_language (language : string) (io : io_outcome) : M unit :=
  modify (with_settings_language language) ;;
  _save_json SETTINGS_FILE io.

(** [_clear_log] (lines 255-258). *)
Definition _clear_log : M unit := modify (with_full_log []).

(** The text [upd] of [_show_summary] puts in the window (lines 300-303). *)
Fixpoint summary_lines (ms : list ref) : M (list string) :=
  match ms with
  | [] => mret []
  | m :: rest =>
      here ← get_downtime_summary m ;
      more ← summary_lines rest ;
      mret (here ++ more)
  end.

Definition summary_text : M string :=
  ms ← gets monitors ;
  lines ← summary_lines ms ;
  texts ← gets lang ;
  let joined := Str.join (String (ascii_of_nat 10) "") lines in
  mret (if Str.truthy joined then joined
        else default "Нет неполадок" (texts !! "no_issues")).

(** ** The program as a state machine

    The window's thread and the monitor threads take turns; a turn is one
    handler of the window, one firing of the auto-save timer, or one turn of
    the loop of a monitor thread. *)
Inductive event :=
| EvStart (now tick : datetime) (env : save_env)
| EvStop
| EvResetAll
| EvAdd (ip_answer name_answer : option string) (io : io_outcome)
| EvDelete (selected : list ref) (confirmed : bool) (io : io_outcome)
| EvRename (self : ref) (answer : option string) (io : io_outcome)
| EvLanguage (language : string) (io : io_outcome)
| EvClearLog
| EvSaveLog (env : save_env)
| EvTimer (t : nat) (now : datetime) (env : save_env)
| EvMonitor (self : ref) (p : ping).

(** The firing of timer [t], if it is pending. *)
Definition timer_fires (t : nat) (now : datetime) (env : save_env) : M unit :=
  pending ← gets pending_timers ;
  if bool_decide (t ∈ pending) then
    modify (fun s => with_pending_timers (filter (fun u => u ≠ t) (pending_timers s)) s) ;;
    job now env
  else mret tt.

(** One turn of a thread that runs [_monitor] on [self], if there is one;
    the thread ends when it leaves the loop, or when a raise leaves it. *)
Definition thread_turn (self : ref) (p : ping) : M unit :=
  live ← gets threads ;
  if bool_decide (self ∈ live) then
    try_except
      (t ← monitor_turn self p ;
       match t with
       | Continues _ => mret tt
       | Exits => modify (fun s => with_threads (remove_one self (threads s)) s)
       end)
      (fun _ => modify (fun s => with_threads (remove_one self (threads s)) s))
  else mret tt.

Definition handle (ev : event) : M unit :=
  match ev with
  | EvStart now tick env => _start_monitoring now tick env
  | EvStop => _stop_monitoring
  | EvResetAll => _reset_all
  | EvAdd a b io => _add_device a b io
  | EvDelete selected confirmed io => _delete_devices selected confirmed io
  | EvRename self answer io => _rename_device self answer io
  | EvLanguage language io => save_language language io
  | EvClearLog => _clear_log
  | EvSaveLog env => _save_log env ;; mret tt
  | EvTimer t now env => timer_fires t now env
  | EvMonitor self p => thread_turn self p
  end.

Definition step (s : App) (ev : event) : App := exec (handle ev) s.

Definition run (evs : list event) (s : App) : App := fold_left step evs s.

(** The states the program can be in, from the settings it starts with. *)
Definition reachable (s : App) : Prop :=
  ∃ language texts devices evs, s = run evs (App_init language texts devices).

(** ** One cycle, seen from the object it runs on

    What [monitor_cycle] does to its own object, as a function of that
    object alone; [monitor_cycle_closed] below proves that the program does
    exactly this.  [listed] says whether the object is in [app.monitors]. *)

(** Lines 389-395.  The right side is a raise, with the object as the raise
    leaves it. *)
Definition downtime_transition (listed lost : bool) (ts : datetime)
  (me : DeviceMonitor) : DeviceMonitor + DeviceMonitor * exn :=
  if lost && negb (is_down me) then
    inl (with_current_downtime_start (Some ts) (with_is_down true me))
  else if negb lost && is_down me then
    let me1 := with_is_down false me in
    if listed then
      match downtime_summary me1 with
      | None =>
          inr (me1, AttributeError
                      "'DeviceMonitor' object has no attribute 'downtime_summary'")
      | Some recorded =>
          inl (with_current_downtime_start None
                 (with_downtime_summary
                    (Some (recorded ++ [(current_downtime_start me1, ts)])) me1))
      end
    else inr (me1, ValueError "list.index(x): x not in list")
  else inl me.

(** Lines 407-409 on the buffer. *)
Definition push_sample (status : Z) (buf : list Z) : list Z :=
  let buf' := buf ++ [status] in
  if 720 <? len buf' then tail buf' else buf'.

(** Lines 407-411 on the object. *)
Definition record_sample (status : Z) (me : DeviceMonitor) : DeviceMonitor :=
  let buf := push_sample status (availability me) in
  with_packet_loss_label (loss_label buf) (with_availability buf me).

Record cycle_outcome := mk_outcome {
  co_me : DeviceMonitor;
  co_log : list log_item;
  co_err : list string;
  co_sample : option Z
}.

Definition error_line (me : DeviceMonitor) (e : exn) : string :=
  "Ошибка мониторинга " +:+ ip me +:+ ": " +:+ exn_str e.

Definition cycle_outcome_of (listed : bool) (p : ping) (me : DeviceMonitor)
  : cycle_outcome :=
  match p with
  | PingRaises e => mk_outcome me [] [error_line me e] None
  | PingOutput out ts =>
      let lost := is_lost out in
      let status := if lost then 0 else 1 in
      match downtime_transition listed lost ts me with
      | inr (me1, e) => mk_outcome me1 [] [error_line me1 e] None
      | inl me1 =>
          mk_outcome (record_sample status me1)
            (log_entry (name me1) (ip me1) lost ts) [] (Some status)
      end
  end.

(** The state after a cycle with outcome [o] on object [self]. *)
Definition apply_outcome (self : ref) (o : cycle_outcome) (s : App) : App :=
  with_error_log (error_log s ++ co_err o)
    (with_full_log (full_log s ++ co_log o)
       (with_objects (<[self := co_me o]> (objects s)) s)).

(** [reset] on the object. *)
Definition reset_view (me : DeviceMonitor) : DeviceMonitor :=
  with_packet_loss_label "Потеря пакетов: 0%" (with_availability [] me).

(** ** Words of the specification *)

(** The last [k] elements of a list, in their order. *)
Definition last_n {A} (k : nat) (xs : list A) : list A :=
  drop (length xs - k) xs.



(** The label the window shows for a buffer: the loss of line 410 with two
    decimals, and [0%] (lines 357 and 375) while the buffer is empty. *)
Definition expected_label (buf : list Z) : string :=
  match buf with
  | [] => "Потеря пакетов: 0%"
  | _ :: _ => loss_label buf
  end.

(** ** Sample values, for the examples below *)

Definition at_second (n : Z) : datetime := mk_datetime 2025 11 3 10 0 n 0.

Definition reply_ok : string := "Reply from 10.0.0.1: bytes=32 time<1ms TTL=64".

Definition reply_lost : string :=
  "Packets: Sent = 1, Received = 0, Lost = 1 (100% loss)".

Definition demo_env : save_env := mk_save_env (at_second 0) None (at_second 0).



(** One device in the settings, and the Start button pressed. *)
Definition demo_app : App := App_init "ru" ∅ [("10.0.0.1", "A")].

Definition demo_running : App :=
  step demo_app (EvStart (at_second 0) (at_second 0) demo_env).

(** ** Relations between the objects of two states *)

(** A computation keeps [R] when every object of the state it leaves is
    related by [R] to the object the reference named before; a reference to
    no object reads as a new, unnamed one. *)
Definition keeps (R : relation DeviceMonitor) {A} (c : M A) : Prop :=
  forall s r, R (objects s !!! r) (objects (exec c s) !!! r).

(** What holds of every object in every state the program reaches. *)
Record device_inv (me : DeviceMonitor) : Prop := mk_device_inv {
  inv_label : packet_loss_label me = expected_label (availability me);
  inv_length : (length (availability me) <= 720)%nat;
  inv_samples : Forall (fun x => x = 0 \/ x = 1) (availability me);
  inv_history : downtime_summary me = None;
  inv_open : is_down me = true -> is_Some (current_downtime_start me)
}.

(** ** The downtime intervals of a device, as the specification speaks of
       them *)

(** The completed intervals: the pairs of [downtime_summary], when the
    object has that attribute. *)
Definition completed_intervals (me : DeviceMonitor) : list (datetime * datetime) :=
  omap (fun iv => match fst iv with
                  | Some start => Some (start, snd iv)
                  | None => None
                  end)
       (default [] (downtime_summary me)).

(** The open intervals: the one that started at [current_downtime_start],
    while the device is down (the condition of line 439). *)
Definition open_intervals (me : DeviceMonitor) : list datetime :=
  if is_down me then option_list (current_downtime_start me) else [].

(** Each interval ends no sooner than it starts, the next one starts no
    sooner than it ends, and later than it started. *)
Fixpoint intervals_ordered (ivs : list (datetime * datetime)) : Prop :=
  match ivs with
  | [] => True
  | iv :: rest =>
      DT.micros (fst iv) <= DT.micros (snd iv) /\
      match rest with
      | [] => True
      | next :: _ =>
          DT.micros (snd iv) <= DT.micros (fst next) /\
          DT.micros (fst iv) < DT.micros (fst next)
      end /\
      intervals_ordered rest
  end.

(** The opening and the closing of an interval. *)
Inductive dt_event :=
| Opens (ts : datetime)
| Closes (ts : datetime).

(** The event of one turn of the program for the device [r]: a cycle of a
    live monitor thread on [r] opens an interval when the condition of line
    389 holds, and closes one when that of line 392 does. *)
Definition downtime_event (r : ref) (s : App) (ev : event) : option dt_event :=
  match ev with
  | EvMonitor self (PingOutput out ts) =>
      let me := objects s !!! r in
      if bool_decide (self = r) && bool_decide (r ∈ threads s) &&
         bool_decide (is_monitoring me = Some true)
      then
        if is_lost out && negb (is_down me) then Some (Opens ts)
        else if negb (is_lost out) && is_down me then Some (Closes ts)
        else None
      else None
  | _ => None
  end.

(** The events of a run for the device [r], the oldest first. *)
Fixpoint downtime_trace (r : ref) (evs : list event) (s : App) : list dt_event :=
  match evs with
  | [] => []
  | ev :: evs' =>
      option_list (downtime_event r s ev) ++ downtime_trace r evs' (step s ev)
  end.

(** A trace in which openings and closings take turns: [down] says whether
    an interval is open before it. *)
Fixpoint alternates (down : bool) (tr : list dt_event) : bool :=
  match tr with
  | [] => true
  | Opens _ :: tr' => negb down && alternates true tr'
  | Closes _ :: tr' => down && alternates false tr'
  end.

(** What an event does to the flag [is_down]. *)
Definition after_event (e : option dt_event) (down : bool) : bool :=
  match e with
  | Some (Opens _) => true
  | Some (Closes _) => false
  | None => down
  end.

(** Whether a device is down after a trace: its last event says. *)
Definition down_after (down : bool) (tr : list dt_event) : bool :=
  match last tr with
  | Some (Opens _) => true
  | Some (Closes _) => false
  | None => down
  end.

(** Two objects with the same [is_down]. *)
Definition same_down (a b : DeviceMonitor) : Prop := is_down a = is_down b.

(** ** Words for the reset *)

(** The parts of an object a reset leaves alone. *)
Definition same_but_buffer (a b : DeviceMonitor) : Prop :=
  ip a = ip b /\ name a = name b /\ is_down a = is_down b /\
  current_downtime_start a = current_downtime_start b /\
  downtime_summary a = downtime_summary b /\
  is_monitoring a = is_monitoring b.

(** An object as a reset leaves it. *)
Definition is_reset (me : DeviceMonitor) : Prop :=
  availability me = [] /\ packet_loss_label me = "Потеря пакетов: 0%".

Definition stays_reset (a b : DeviceMonitor) : Prop := is_reset a -> is_reset b.

(** A tick of the timer a day after the start. *)
Definition next_day : datetime := mk_datetime 2025 11 4 10 0 0 0.

Definition next_day_env (io : io_outcome) : save_env :=
  mk_save_env next_day io (mk_datetime 2025 11 4 10 0 0 1500).

(** ** Words for the summary *)

(** The lines the specification expects for one device: a line for each
    completed interval, and one more, marked as going on, for the open
    interval. *)
Definition expected_device_lines (me : DeviceMonitor) : list string :=
  map (fun iv => closed_line (name me) (fst iv) (snd iv)) (completed_intervals me) ++
  map (ongoing_line (name me)) (open_intervals me).

(** The history of a device is well formed when every recorded interval has
    a start, and so has the open one while the device is down. *)
Definition history_well_formed (me : DeviceMonitor) : Prop :=
  Forall (fun iv => is_Some (fst iv)) (default [] (downtime_summary me)) /\
  (is_down me = true -> is_Some (current_downtime_start me)).

(** A device that went down twice and is still down, and a state with it. *)
Definition twice_down : DeviceMonitor :=
  mk_monitor "10.0.0.2" "B" [1; 0; 1; 0] true (Some (at_second 40))
    (Some [(Some (at_second 10), at_second 20)]) (Some true)
    "Потеря пакетов: 50.00%".

Definition summary_demo : App :=
  with_monitors [0%nat; 1%nat]
    (with_objects (<[1%nat := twice_down]> (objects demo_running)) demo_running).

(** ** The lock of the shared log (lines 64, 401-402)

    In the state machine above a cycle of a monitor is one step.  Here the
    steps are finer: a thread takes the lock, copies its batch item by item,
    and releases the lock, and any thread may take any step in between. *)

Module LogLock.

(** The [entry] of lines 398-400: what one cycle appends. *)
Definition batch : Type := list log_item.

(** Where a monitor thread stands with respect to lines 401-402: outside
    the [with] block, or inside it, holding the lock, with [extend] having
    copied [copied] of its batch and [rest] still to copy. *)
Inductive pc :=
| Outside
| Inside (copied rest : list log_item).

(** A monitor thread: where it stands, and the batches of its cycles to
    come. *)
Record thread := mk_thread { at_pc : pc; todo : list batch }.

(** The shared log, the thread that holds [log_lock], and the threads. *)
Record world := mk_world {
  shared_log : list log_item;
  holder : option nat;
  pool : list thread
}.

(** One step of thread [i]: it takes the lock if the lock is free, copies
    one more item while it is inside, releases the lock when its batch is
    copied; it waits when another thread holds the lock. *)
Definition thread_step (w : world) (i : nat) : world :=
  match pool w !! i with
  | None => w
  | Some th =>
      match at_pc th with
      | Outside =>
          match todo th, holder w with
          | b :: bs, None =>
              mk_world (shared_log w) (Some i)
                (<[i := mk_thread (Inside [] b) bs]> (pool w))
          | _, _ => w
          end
      | Inside copied (x :: rest) =>
          mk_world (shared_log w ++ [x]) (holder w)
            (<[i := mk_thread (Inside (copied ++ [x]) rest) (todo th)]> (pool w))
      | Inside copied [] =>
          mk_world (shared_log w) None
            (<[i := mk_thread Outside (todo th)]> (pool w))
      end
  end.

(** A schedule names the thread that takes each step. *)
Definition run_schedule (sched : list nat) (w : world) : world :=
  fold_left thread_step sched w.

(** The threads at the start, each with the batches it will append. *)
Definition start (log0 : list log_item) (work : list (list batch)) : world :=
  mk_world log0 None (map (mk_thread Outside) work).

(** Every thread has appended all its batches. *)
Definition finished (w : world) : Prop :=
  Forall (fun th => at_pc th = Outside /\ todo th = []) (pool w).

(** The batch a thread is appending, and the part of it in the log. *)
Definition in_flight (th : thread) : list batch :=
  match at_pc th with
  | Outside => []
  | Inside copied rest => [copied ++ rest]
  end.

Definition written (th : thread) : list log_item :=
  match at_pc th with
  | Outside => []
  | Inside copied _ => copied
  end.

Definition copied_so_far (w : world) : list log_item :=
  match holder w with
  | Some i => from_option written [] (pool w !! i)
  | None => []
  end.

(** The invariant of the lock: only its holder is inside the block; the
    log is the log of the start, the batches appended so far, whole and
    one after the other, and the part the holder has copied; and the
    batches appended, in flight and to come are those of the start. *)
Record inv (log0 : list log_item) (work : list (list batch)) (w : world) : Prop := {
  inv_excl : forall i th, pool w !! i = Some th -> at_pc th <> Outside -> holder w = Some i;
  inv_log : exists order,
    shared_log w = log0 ++ concat order ++ copied_so_far w /\
    order ++ concat (map in_flight (pool w)) ++ concat (map todo (pool w))
      ≡ₚ concat work
}.

Definition others {B} (f : thread -> list B) (i : nat) (ths : list thread) : list B :=
  concat (map f (take i ths)) ++ concat (map f (drop (S i) ths)).

(** Two monitor threads with one cycle each, and a schedule in which the
    second asks for the lock while the first holds it. *)
Definition two_threads : list (list batch) :=
  [ [log_entry "A" "10.0.0.1" false (at_second 5)];
    [log_entry "B" "10.0.0.2" true (at_second 6)] ].

Definition two_threads_schedule : list nat :=
  [0; 1; 0; 1; 0; 1; 0; 1; 0; 1; 1; 1; 1; 1]%nat.

End LogLock.

(** ** Words for a clock that moves forward *)

(** The instants, in microseconds, at which the pings of a run returned. *)
Definition ping_times (ps : list ping) : list Z :=
  omap (fun p => match p with
                 | PingOutput _ ts => Some (DT.micros ts)
                 | PingRaises _ => None
                 end) ps.

(** Each [datetime.now()] of a run is later than the one before. *)
Definition clock_advances (ps : list ping) : Prop :=
  StronglySorted Z.lt (ping_times ps).

(** The cycles of a run on an object that is in [app.monitors], seen from
    that object. *)
Definition device_run (ps : list ping) (me : DeviceMonitor) : DeviceMonitor :=
  fold_left (fun m p => co_me (cycle_outcome_of true p m)) ps me.

(** What holds of the history of an object whose list of intervals exists,
    when every instant read so far is at most [b]. *)
Record history_inv (b : Z) (me : DeviceMonitor) : Prop := mk_history_inv {
  hist_exists : is_Some (downtime_summary me);
  hist_starts : Forall (fun iv => is_Some (fst iv)) (default [] (downtime_summary me));
  hist_ordered : intervals_ordered (completed_intervals me);
  hist_past : Forall (fun iv => DT.micros (snd iv) <= b) (completed_intervals me);
  hist_open : is_down me = true ->
    exists d, current_downtime_start me = Some d /\ DT.micros d <= b /\
      Forall (fun iv => DT.micros (snd iv) <= DT.micros d /\
                        DT.micros (fst iv) < DT.micros d)
             (completed_intervals me)
}.

(** The running monitor of [demo_running], had its list been created. *)
Definition demo_with_list : App :=
  with_objects (alter (with_downtime_summary (Some [])) 0%nat (objects demo_running))
    demo_running.

Definition four_pings : list ping :=
  [PingOutput reply_ok (at_second 5); PingOutput reply_lost (at_second 10);
   PingOutput reply_lost (at_second 15); PingOutput reply_ok (at_second 20)].

(** ** Words for the handlers in closed form *)

(** [f] applied to the objects of [rs], one after the other, as a [for]
    loop over [rs] does. *)
Definition alter_all (f : DeviceMonitor -> DeviceMonitor) (rs : list ref)
  (objs : gmap ref DeviceMonitor) : gmap ref DeviceMonitor :=
  fold_left (fun o r => alter f r o) rs objs.

(** [ms.remove(m)] for each [m] of [rs] in turn. *)
Definition remove_all (rs ms : list ref) : list ref :=
  fold_left (fun ms m => remove_one m ms) rs ms.

(** [d.pop(k, None)] for each [k] of [keys] in turn. *)
Definition pop_all (keys : list string) (sd : gmap string string) : gmap string string :=
  fold_left (fun sd k => delete k sd) keys sd.

(** The state the loop of [_delete_devices] (lines 223-227) leaves. *)
Definition deleted (to_del : list ref) (s : App) : App :=
  with_settings_devices
    (pop_all (map (fun m => ip (objects s !!! m)) to_del) (settings_devices s))
    (with_monitors (remove_all to_del (monitors s))
       (with_objects (alter_all (with_is_monitoring (Some false)) to_del (objects s)) s)).

(** The condition of line 284. *)
Definition save_due (now : datetime) (s : App) : bool :=
  timer_running s &&
  match last_save_time s with
  | Some t => DT.total_seconds_ge (DT.sub now t) AUTO_SAVE_INTERVAL
  | None => false
  end.

(** The answers [_add_device] accepts (lines 196-200): an address that is
    not empty and not in the settings, and a name that is not empty. *)
Definition add_accepts (ip_answer name_answer : option string) (s : App)
  : option (string * string) :=
  match ip_answer, name_answer with
  | Some addr, Some nm =>
      if Str.truthy addr && negb (bool_decide (is_Some (settings_devices s !! addr)))
         && Str.truthy nm
      then Some (addr, nm) else None
  | _, _ => None
  end.

(** The state lines 208-213 leave once the answers are accepted. *)
Definition added (addr nm : string) (io : io_outcome) (s : App) : App :=
  let r := fresh (dom (objects s)) in
  let s1 := with_settings_devices (<[addr := nm]> (settings_devices s))
              (with_monitors (monitors s ++ [r])
                 (with_objects (<[r := DeviceMonitor_init addr nm]> (objects s)) s)) in
  let s2 := exec (_save_json SETTINGS_FILE io) s1 in
  if timer_running s then exec (start_monitoring r) s2 else s2.

(** ** What holds of the threads and of the timers in every state *)

(** The monitors of the list are objects of the store, each once; a thread
    runs on an object whose flag [is_monitoring] exists; the pending timers
    are distinct and were made by the program; and while the timer of the
    window runs, the times of the start and of the last save are set and the
    timer kept in [auto_save_timer] is pending. *)
Record app_inv (s : App) : Prop := mk_app_inv {
  ai_listed : forall r, r ∈ monitors s -> is_Some (objects s !! r);
  ai_nodup : NoDup (monitors s);
  ai_threads : forall r, r ∈ threads s -> is_Some (is_monitoring (objects s !!! r));
  ai_pending : NoDup (pending_timers s);
  ai_made : forall t, t ∈ pending_timers s -> (t < timers_made s)%nat;
  ai_running : timer_running s = true ->
    is_Some (start_time s) /\ is_Some (last_save_time s) /\
    exists t, auto_save_timer s = Some t /\ t ∈ pending_timers s
}.


(** * Properties *)

Example format_2f_tie : Flt.format_2f (Flt.of_int 25 / Flt.of_int 8)%float = "3.12".
Proof. vm_compute. reflexivity. Qed.

Example strftime_example :
  DT.strftime_HMS (mk_datetime 2025 3 9 7 5 0 12) = "07:05:00".
Proof. vm_compute. reflexivity. Qed.

(** ** The monad, step by step *)

Section Monad_steps.
Context {A B : Type}.

Lemma bind_ret (a : A) (k : A -> M B) s : (mret a ≫= k) s = k a s.
Proof. reflexivity. Qed.

Lemma bind_gets (f : App -> A) (k : A -> M B) s : (gets f ≫= k) s = k (f s) s.
Proof. reflexivity. Qed.

Lemma bind_modify (f : App -> App) (k : unit -> M B) s :
  (modify f ≫= k) s = k tt (f s).
Proof. reflexivity. Qed.

Lemma bind_raise (e : exn) (k : A -> M B) s : (raise e ≫= k) s = (Raise e, s).
Proof. reflexivity. Qed.

Lemma bind_assoc {C} (c : M A) (k : A -> M B) (h : B -> M C) s :
  ((c ≫= k) ≫= h) s = (c ≫= (fun a => k a ≫= h)) s.
Proof.
  unfold mbind, M_bind. destruct (c s) as [[a|e] s']; reflexivity.
Qed.

End Monad_steps.

Lemma alter_present (f : DeviceMonitor -> DeviceMonitor)
  (m : gmap ref DeviceMonitor) r me :
  m !! r = Some me -> alter f r m = <[r := f me]> m.
Proof.
  intros H. apply map_eq. intros j. rewrite lookup_alter, lookup_insert.
  case_decide; subst; [rewrite H|]; reflexivity.
Qed.

Lemma list_index_lookup x xs i : list_index x xs = Some i -> xs !! i = Some x.
Proof.
  revert i. induction xs as [|y ys IH]; intros i; simpl; [discriminate|].
  case_decide; subst.
  - intros [= <-]. reflexivity.
  - destruct (list_index x ys) as [j|]; simpl; [|discriminate].
    intros [= <-]. simpl. apply IH. reflexivity.
Qed.

Lemma list_index_elem x xs : is_Some (list_index x xs) <-> x ∈ xs.
Proof.
  induction xs as [|y ys IH]; simpl.
  - split; [intros [? [=]] | intros H; inversion H].
  - case_decide; subst.
    + split; [intros _; left | eauto].
    + rewrite elem_of_cons, <- IH. split.
      * intros [i Hi]. right. destruct (list_index x ys); [eauto | discriminate].
      * intros [->|[i Hi]]; [congruence|]. rewrite Hi. simpl. eauto.
Qed.

(** ** A cycle of [_monitor] in closed form *)

Ltac unfold_app :=
  cbv beta iota zeta delta
    [monitor_cycle monitor_try monitor_turn try_except mbind M_bind mret M_ret
     gets modify obj set_obj run_ping raise log_error exec
     start_monitoring stop_monitoring reset
     with_objects with_monitors with_full_log with_auto_save_timer with_start_time
     with_timer_running with_last_save_time with_settings_devices with_timer_label
     with_threads with_pending_timers with_timers_made with_error_log with_disk
     objects monitors full_log auto_save_timer start_time timer_running last_save_time
     settings_language settings_devices lang timer_label threads pending_timers
     timers_made error_log disk apply_outcome fst snd
     with_name with_availability with_is_down with_current_downtime_start
     with_downtime_summary with_is_monitoring with_packet_loss_label
     ip name availability is_down current_downtime_start downtime_summary
     is_monitoring packet_loss_label
     cycle_outcome_of downtime_transition record_sample push_sample error_line
     reset_view co_me co_log co_err co_sample andb negb default].

Ltac step_app :=
  repeat (unfold_app;
          rewrite ?alter_insert_eq, ?lookup_total_insert_eq, ?insert_insert_eq).

Lemma len_push_nonzero (x : Z) (buf : list Z) : (len (buf ++ [x]) =? 0) = false.
Proof. unfold len. rewrite length_app. simpl. apply Z.eqb_neq. lia. Qed.

Lemma len_tail_nonzero (buf : list Z) :
  (720 <? len buf) = true -> (len (tail buf) =? 0) = false.
Proof.
  unfold len. intros H%Z.ltb_lt. apply Z.eqb_neq.
  destruct buf as [|x [|y t]]; simpl in *; lia.
Qed.

(** The division of line 410 never meets an empty buffer. *)
Lemma buffer_not_empty_at_division (x : Z) (b : list Z) :
  (if 720 <? len (b ++ [x]) then len (tail (b ++ [x])) =? 0
   else len (b ++ [x]) =? 0) = false.
Proof.
  destruct (720 <? len (b ++ [x])) eqn:E.
  - apply len_tail_nonzero, E.
  - apply len_push_nonzero.
Qed.

(** [monitor_cycle] never raises, and does to the state what
    [cycle_outcome_of] says it does to its object. *)
Lemma monitor_cycle_closed s self me p :
  objects s !! self = Some me ->
  monitor_cycle self p s =
    let o := cycle_outcome_of (bool_decide (self ∈ monitors s)) p me in
    (Ok (co_sample o), apply_outcome self o s).
Proof.
  intros Hme. destruct s as [objs ms fl ast st tr lst sl sd lg tl th pt tm el dk].
  cbn [objects monitors] in *.
  pose proof (insert_id objs self me Hme) as E. rewrite <- E. clear E Hme.
  destruct me as [i n buf d cds ds im lbl].
  destruct p as [e|out ts].
  { step_app. rewrite app_nil_r. reflexivity. }
  pose proof buffer_not_empty_at_division as Hrec.
  destruct (is_lost out) eqn:Hl, d.
  - step_app. rewrite Hl. step_app.
    specialize (Hrec 0 buf).
    destruct (720 <? len (buf ++ [0])); step_app; rewrite Hrec; step_app;
      rewrite ?app_nil_r; reflexivity.
  - step_app. rewrite Hl. step_app.
    specialize (Hrec 0 buf).
    destruct (720 <? len (buf ++ [0])); step_app; rewrite Hrec; step_app;
      rewrite ?app_nil_r; reflexivity.
  - step_app. rewrite Hl. step_app.
    destruct (list_index self ms) as [k|] eqn:Hk.
    + rewrite (bool_decide_eq_true_2 (self ∈ ms)) by (apply list_index_elem; eauto).
      rewrite (list_index_lookup _ _ _ Hk). step_app.
      destruct ds as [recorded|]; step_app.
      * specialize (Hrec 1 buf).
        destruct (720 <? len (buf ++ [1])); step_app; rewrite Hrec; step_app;
          rewrite ?app_nil_r; reflexivity.
      * rewrite app_nil_r. reflexivity.
    + rewrite (bool_decide_eq_false_2 (self ∈ ms)).
      2:{ intros Hin%list_index_elem. rewrite Hk in Hin. destruct Hin; discriminate. }
      step_app. rewrite app_nil_r. reflexivity.
  - step_app. rewrite Hl. step_app.
    specialize (Hrec 1 buf).
    destruct (720 <? len (buf ++ [1])); step_app; rewrite Hrec; step_app;
      rewrite ?app_nil_r; reflexivity.
Qed.



(** ** The availability buffer *)


Lemma push_sample_last_n (x : Z) (buf : list Z) :
  (length buf ≤ 720)%nat -> push_sample x buf = last_n 720 (buf ++ [x]).
Proof.
  intros Hlen. unfold push_sample, last_n, len. rewrite length_app. simpl.
  destruct (720 <? Z.of_nat (length buf + 1)) eqn:E.
  - apply Z.ltb_lt in E. replace (length buf + 1 - 720)%nat with 1%nat by lia.
    destruct (buf ++ [x]); reflexivity.
  - apply Z.ltb_ge in E. replace (length buf + 1 - 720)%nat with 0%nat by lia.
    reflexivity.
Qed.

Lemma last_n_length {A} (k : nat) (xs : list A) : (length (last_n k xs) ≤ k)%nat.
Proof. unfold last_n. rewrite length_drop. lia. Qed.



Lemma cycle_outcome_flag listed p me :
  is_monitoring (co_me (cycle_outcome_of listed p me)) = is_monitoring me.
Proof.
  destruct me as [i n buf d cds ds im lbl]. destruct p as [e|out ts]; [reflexivity|].
  unfold cycle_outcome_of, downtime_transition.
  destruct (is_lost out), d, listed; try destruct ds; reflexivity.
Qed.

Lemma cycle_is_down listed out ts me :
  is_down (co_me (cycle_outcome_of listed (PingOutput out ts) me)) =
    if is_lost out && negb (is_down me) then true
    else if negb (is_lost out) && is_down me then false
    else is_down me.
Proof.
  destruct me as [i n buf d cds ds im lbl].
  unfold cycle_outcome_of, downtime_transition.
  destruct (is_lost out), d, listed; try destruct ds; reflexivity.
Qed.



Lemma apply_outcome_lookup self o s : objects (apply_outcome self o s) !! self = Some (co_me o).
Proof. unfold apply_outcome. cbn. apply lookup_insert_eq. Qed.

Lemma monitor_turn_closed s self me p :
  objects s !! self = Some me ->
  monitor_turn self p s =
    match is_monitoring me with
    | None => (Raise (AttributeError "'DeviceMonitor' object has no attribute 'is_monitoring'"), s)
    | Some false => (Ok Exits, s)
    | Some true =>
        let o := cycle_outcome_of (bool_decide (self ∈ monitors s)) p me in
        (Ok (Continues (co_sample o)), apply_outcome self o s)
    end.
Proof.
  intros Hme. unfold monitor_turn, obj. rewrite bind_gets.
  rewrite (lookup_total_correct _ _ _ Hme).
  destruct (is_monitoring me) as [[|]|]; try reflexivity.
  unfold mbind, M_bind. rewrite (monitor_cycle_closed _ _ _ _ Hme). reflexivity.
Qed.







(** ** Relations that every turn of the program keeps *)

Lemma alter_absent (f : DeviceMonitor -> DeviceMonitor) (m : gmap ref DeviceMonitor) r :
  m !! r = None -> alter f r m = m.
Proof.
  intros H. apply map_eq. intros j. rewrite lookup_alter.
  case_decide; subst; [rewrite H|]; reflexivity.
Qed.

Ltac step_absent H :=
  repeat (unfold_app;
          rewrite ?(alter_absent _ _ _ H), ?lookup_total_alt, ?H;
          cbv beta iota zeta delta
            [default inhabitant DeviceMonitor_inhabited DeviceMonitor_init]).

(** A cycle on a reference to no object leaves the store as it is. *)
Lemma monitor_cycle_absent s self p :
  objects s !! self = None -> objects (exec (monitor_cycle self p) s) = objects s.
Proof.
  intros H. destruct s as [objs ms fl ast st tr lst sl sd lg tl th pt tm el dk].
  cbn [objects] in *.
  destruct p as [e|out ts].
  { step_absent H. reflexivity. }
  step_absent H.
  destruct (is_lost out) eqn:Hl; step_absent H.
  - change (720 <? @len Z []) with false. step_absent H.
    change (@len Z [] =? 0) with true. step_absent H. reflexivity.
  - change (720 <? @len Z []) with false. step_absent H.
    change (@len Z [] =? 0) with true. step_absent H. reflexivity.
Qed.

Create HintDb keeps discriminated.

Section Keeps.
Context (R : relation DeviceMonitor) `{!PreOrder R}.
Hypothesis R_new : forall a n, R inhabitant (DeviceMonitor_init a n).
Hypothesis R_flag : forall v me, R me (with_is_monitoring (Some v) me).
Hypothesis R_reset : forall me, R me (reset_view me).
Hypothesis R_name : forall v me, R me (with_name v me).

Lemma keeps_ret {A} (a : A) : keeps R (mret a : M A).
Proof. intros s r. reflexivity. Qed.

Lemma keeps_raise {A} (e : exn) : keeps R (raise e : M A).
Proof. intros s r. reflexivity. Qed.

Lemma keeps_gets {A} (f : App -> A) : keeps R (gets f).
Proof. intros s r. reflexivity. Qed.

Lemma keeps_modify (f : App -> App) :
  (forall s, objects (f s) = objects s) -> keeps R (modify f).
Proof. intros Hf s r. unfold exec, modify. cbn. rewrite Hf. reflexivity. Qed.

Lemma keeps_bind {A B} (c : M A) (k : A -> M B) :
  keeps R c -> (forall a, keeps R (k a)) -> keeps R (c ≫= k).
Proof.
  intros Hc Hk s r. specialize (Hc s r). unfold exec, mbind, M_bind in *.
  destruct (c s) as [[a|e] s'] eqn:E; cbn in *.
  - etransitivity; [exact Hc|]. apply (Hk a s' r).
  - exact Hc.
Qed.

Lemma keeps_try {A} (c : M A) (h : exn -> M A) :
  keeps R c -> (forall e, keeps R (h e)) -> keeps R (try_except c h).
Proof.
  intros Hc Hh s r. specialize (Hc s r). unfold exec, try_except in *.
  destruct (c s) as [[a|e] s'] eqn:E; cbn in *.
  - exact Hc.
  - etransitivity; [exact Hc|]. apply (Hh e s' r).
Qed.

Lemma keeps_for_each {A} (xs : list A) (body : A -> M unit) :
  (forall x, keeps R (body x)) -> keeps R (for_each xs body).
Proof.
  intros Hb. induction xs as [|x xs IH]; cbn [for_each].
  - apply (keeps_ret tt).
  - apply keeps_bind; [apply Hb|intros _; exact IH].
Qed.

Lemma keeps_alter (f : DeviceMonitor -> DeviceMonitor) self s s' :
  (forall me, R me (f me)) ->
  objects s' = alter f self (objects s) ->
  forall r, R (objects s !!! r) (objects s' !!! r).
Proof.
  intros Hf -> r. rewrite lookup_total_alter. case_decide; subst; [|reflexivity].
  rewrite lookup_total_alt. destruct (objects s !! r); cbn; [apply Hf|reflexivity].
Qed.

Lemma keeps_set_obj self f : (forall me, R me (f me)) -> keeps R (set_obj self f).
Proof. intros Hf s. apply (keeps_alter f self); [exact Hf|reflexivity]. Qed.

Lemma keeps_log_error msg : keeps R (log_error msg).
Proof. apply keeps_modify. reflexivity. Qed.

Lemma keeps_start_monitoring self : keeps R (start_monitoring self).
Proof.
  unfold start_monitoring. apply keeps_bind.
  - apply keeps_set_obj, R_flag.
  - intros _. apply keeps_modify. reflexivity.
Qed.

Lemma keeps_stop_monitoring self : keeps R (stop_monitoring self).
Proof. apply keeps_set_obj, R_flag. Qed.

Lemma keeps_reset self : keeps R (reset self).
Proof.
  intros s. apply (keeps_alter reset_view self); [exact R_reset|].
  unfold exec, reset, set_obj, mbind, M_bind, modify. cbn.
  rewrite alter_alter_eq. reflexivity.
Qed.

Lemma keeps_new_monitor a n : keeps R (new_monitor a n).
Proof.
  intros s r. unfold exec, new_monitor, mbind, M_bind, gets, modify, mret, M_ret. cbn.
  rewrite lookup_total_insert. case_decide; subst; [|reflexivity].
  rewrite lookup_total_alt.
  rewrite (proj1 (not_elem_of_dom (objects s) _) (is_fresh (dom (objects s)))).
  apply R_new.
Qed.

Ltac keeps :=
  repeat first
    [ solve [auto 1 with keeps nocore]
    | simple apply keeps_gets | simple apply keeps_ret | simple apply keeps_raise
    | simple apply keeps_modify; intros; reflexivity
    | simple apply keeps_bind; [|intros ?]
    | simple apply keeps_try; [|intros ?]
    | simple apply keeps_for_each; intros ?
    | match goal with
      | |- keeps _ (if ?c then _ else _) => destruct c
      | |- keeps _ (match ?x with _ => _ end) => destruct x
      end ].

#[local] Hint Resolve keeps_log_error keeps_start_monitoring keeps_stop_monitoring
  keeps_reset keeps_new_monitor : keeps.

Lemma keeps_save_json path io : keeps R (_save_json path io).
Proof. unfold _save_json. keeps. Qed.

Lemma keeps_save_log env : keeps R (_save_log env).
Proof. unfold _save_log. keeps. Qed.

Lemma keeps_arm_timer : keeps R arm_timer.
Proof. unfold arm_timer. keeps. Qed.

#[local] Hint Resolve keeps_save_json keeps_save_log keeps_arm_timer : keeps.

Lemma keeps_job now env : keeps R (job now env).
Proof. unfold job. keeps. Qed.

Lemma keeps_cancel_timer : keeps R cancel_timer.
Proof. unfold cancel_timer. keeps. Qed.

#[local] Hint Resolve keeps_job keeps_cancel_timer : keeps.

Lemma keeps_start now tick env : keeps R (_start_monitoring now tick env).
Proof. unfold _start_monitoring. keeps. Qed.

Lemma keeps_stop : keeps R _stop_monitoring.
Proof. unfold _stop_monitoring. keeps. Qed.

Lemma keeps_reset_all : keeps R _reset_all.
Proof. unfold _reset_all. keeps. Qed.

Lemma keeps_add_device a b io : keeps R (_add_device a b io).
Proof. unfold _add_device. keeps. Qed.

Lemma keeps_timer_fires t now env : keeps R (timer_fires t now env).
Proof. unfold timer_fires. keeps. Qed.

Lemma keeps_delete_devices selected confirmed io :
  keeps R (_delete_devices selected confirmed io).
Proof. unfold _delete_devices, monitors_remove, obj. keeps. Qed.

Lemma keeps_rename_device self answer io : keeps R (_rename_device self answer io).
Proof.
  unfold _rename_device, obj. keeps. apply keeps_set_obj. intros me. apply R_name.
Qed.

Lemma keeps_save_language language io : keeps R (save_language language io).
Proof. unfold save_language. keeps. Qed.

Lemma keeps_init_device_tiles devices : keeps R (_init_device_tiles devices).
Proof. unfold _init_device_tiles. keeps. Qed.

(** Where a cycle keeps [R], so does a turn of a monitor thread. *)
Lemma keeps_monitor_cycle self p :
  (forall listed me, R me (co_me (cycle_outcome_of listed p me))) ->
  keeps R (monitor_cycle self p).
Proof.
  intros R_cycle s r. destruct (objects s !! self) as [me|] eqn:Hme.
  - unfold exec. rewrite (monitor_cycle_closed _ _ _ _ Hme). cbn.
    rewrite lookup_total_insert. case_decide; subst; [|reflexivity].
    rewrite (lookup_total_correct _ _ _ Hme). apply R_cycle.
  - rewrite (monitor_cycle_absent _ _ _ Hme). reflexivity.
Qed.

Lemma keeps_thread_turn self p :
  (forall listed me, R me (co_me (cycle_outcome_of listed p me))) ->
  keeps R (thread_turn self p).
Proof.
  intros R_cycle. pose proof (keeps_monitor_cycle self p R_cycle).
  unfold thread_turn, monitor_turn, obj. keeps.
Qed.

(** Every turn of the program keeps [R], if the cycles of [_monitor] do. *)
Lemma keeps_handle ev :
  (forall listed p me, R me (co_me (cycle_outcome_of listed p me))) ->
  keeps R (handle ev).
Proof.
  intros R_cycle.
  destruct ev; cbn [handle];
    first [ apply keeps_start | apply keeps_stop | apply keeps_reset_all
          | apply keeps_add_device | apply keeps_timer_fires
          | apply keeps_delete_devices | apply keeps_rename_device
          | apply keeps_save_language
          | apply keeps_thread_turn; intros; apply R_cycle
          | unfold _clear_log; keeps ].
Qed.

Lemma keeps_run evs :
  (forall listed p me, R me (co_me (cycle_outcome_of listed p me))) ->
  forall s r, R (objects s !!! r) (objects (run evs s) !!! r).
Proof.
  intros R_cycle. induction evs as [|ev evs IH]; intros s r; cbn [run fold_left].
  - reflexivity.
  - etransitivity; [apply (keeps_handle ev R_cycle s r)|]. apply IH.
Qed.

(** The turns of the window's thread and of the timer keep [R]. *)
Lemma keeps_window ev :
  (forall self p, ev <> EvMonitor self p) -> keeps R (handle ev).
Proof.
  intros Hev.
  destruct ev; cbn [handle];
    first [ apply keeps_start | apply keeps_stop | apply keeps_reset_all
          | apply keeps_add_device | apply keeps_timer_fires
          | apply keeps_delete_devices | apply keeps_rename_device
          | apply keeps_save_language
          | exfalso; eapply Hev; reflexivity
          | unfold _clear_log; keeps ].
Qed.

End Keeps.

(** An invariant of the objects: a property that holds of a new object and
    that no cycle, reset or write of the flag breaks holds of every object
    in every state the program reaches. *)
Lemma reachable_invariant (P : DeviceMonitor -> Prop) :
  (forall a n, P (DeviceMonitor_init a n)) ->
  (forall listed p me, P me -> P (co_me (cycle_outcome_of listed p me))) ->
  (forall me, P me -> P (reset_view me)) ->
  (forall v me, P me -> P (with_is_monitoring (Some v) me)) ->
  (forall v me, P me -> P (with_name v me)) ->
  forall language texts devices evs r,
    P (objects (run evs (App_init language texts devices)) !!! r).
Proof.
  intros Hinit Hcycle Hreset Hflag Hname language texts devices evs r.
  set (R := fun a b : DeviceMonitor => P a -> P b).
  assert (HR : PreOrder R) by (split; unfold R; [intros x; auto|intros x y z; auto]).
  assert (Hnew : forall a n, R inhabitant (DeviceMonitor_init a n))
    by (intros a n _; apply Hinit).
  apply (keeps_run R Hnew Hflag Hreset Hname evs Hcycle
           (App_init language texts devices) r).
  apply (keeps_init_device_tiles R Hnew devices
           (with_settings_devices (list_to_map devices) (empty_app language texts)) r).
  cbn. rewrite lookup_total_empty. apply (Hinit "" "").
Qed.

(** ** Invariants of the objects *)

Lemma push_sample_cons (x : Z) (buf : list Z) :
  exists y t, push_sample x buf = y :: t.
Proof.
  unfold push_sample. destruct (720 <? len (buf ++ [x])) eqn:E.
  - pose proof (len_tail_nonzero _ E) as H. 
    destruct (tail (buf ++ [x])) as [|y t]; [discriminate|eauto].
  - destruct buf; simpl; eauto.
Qed.

Lemma expected_label_push (x : Z) (buf : list Z) :
  expected_label (push_sample x buf) = loss_label (push_sample x buf).
Proof. destruct (push_sample_cons x buf) as (y & t & ->). reflexivity. Qed.

Lemma Forall_tail {A} (P : A -> Prop) (l : list A) : Forall P l -> Forall P (tail l).
Proof. destruct 1; simpl; [constructor|assumption]. Qed.

Lemma push_sample_Forall (P : Z -> Prop) (x : Z) (buf : list Z) :
  P x -> Forall P buf -> Forall P (push_sample x buf).
Proof.
  intros Hx Hb. unfold push_sample.
  assert (Forall P (buf ++ [x])) by (apply Forall_app; split; [assumption|repeat constructor; assumption]).
  destruct (720 <? len (buf ++ [x])); [apply Forall_tail|]; assumption.
Qed.

Lemma device_inv_init a n : device_inv (DeviceMonitor_init a n).
Proof. split; cbn; try reflexivity; [lia|constructor|discriminate]. Qed.

Lemma device_inv_record x me :
  x = 0 \/ x = 1 -> device_inv me -> device_inv (record_sample x me).
Proof.
  intros Hx [Hl Hn Hs Hh Ho]. destruct me as [i n buf d cds ds im lbl]. cbn in *.
  split; cbn.
  - symmetry. apply expected_label_push.
  - rewrite push_sample_last_n by exact Hn. apply last_n_length.
  - apply push_sample_Forall; assumption.
  - exact Hh.
  - exact Ho.
Qed.

Lemma device_inv_cycle listed p me :
  device_inv me -> device_inv (co_me (cycle_outcome_of listed p me)).
Proof.
  intros Hinv. destruct p as [e|out ts]; [exact Hinv|].
  unfold cycle_outcome_of, downtime_transition.
  destruct (is_lost out) eqn:Hl, (is_down me) eqn:Hd; cbn [andb negb].
  - apply device_inv_record; [auto|exact Hinv].
  - apply device_inv_record; [auto|].
    destruct Hinv as [H1 H2 H3 H4 H5]. destruct me. cbn in *. split; cbn; eauto.
  - rewrite (inv_history _ Hinv) at 1.
    destruct listed; cbn [co_me];
      destruct Hinv as [H1 H2 H3 H4 H5]; destruct me; cbn in *;
      split; cbn; auto; discriminate.
  - apply device_inv_record; [auto|exact Hinv].
Qed.

Lemma device_inv_reset me : device_inv me -> device_inv (reset_view me).
Proof.
  intros [H1 H2 H3 H4 H5]. destruct me. cbn in *. split; cbn; first [assumption | lia | constructor].
Qed.

Lemma device_inv_flag v me : device_inv me -> device_inv (with_is_monitoring (Some v) me).
Proof. intros [H1 H2 H3 H4 H5]. destruct me. cbn in *. split; cbn; auto. Qed.

Lemma device_inv_name v me : device_inv me -> device_inv (with_name v me).
Proof. intros [H1 H2 H3 H4 H5]. destruct me. cbn in *. split; cbn; auto. Qed.

(** The invariant holds in every state the program reaches. *)
Lemma device_inv_reachable language texts devices evs r :
  device_inv (objects (run evs (App_init language texts devices)) !!! r).
Proof.
  apply reachable_invariant.
  - apply device_inv_init.
  - apply device_inv_cycle.
  - apply device_inv_reset.
  - apply device_inv_flag.
  - apply device_inv_name.
Qed.

(** X1.  In every state the program reaches, every device has at most 720
    samples, each 0 or 1, a label that agrees with them, no list of completed
    intervals, and the start of its downtime while it is down. *)
Theorem reachable_devices_well_formed language texts devices evs r :
  device_inv (objects (run evs (App_init language texts devices)) !!! r).
Proof. exact (device_inv_reachable language texts devices evs r). Qed.


(** X6.  The loss is computed on floats: with 73 replies among 160 samples the
    loss is 54.375 % exactly, and the label shows 54.37. *)
Example loss_at_a_tie :
  loss_label (replicate 73 1 ++ replicate 87 0) = "Потеря пакетов: 54.37%" /\
  Flt.round_half_even (10000 * 87) 160 = 5438.
Proof. vm_compute. split; reflexivity. Qed.

(** ** The downtime state machine *)

#[local] Instance same_down_preorder : PreOrder same_down.
Proof. split; [intros x; reflexivity|intros x y z; unfold same_down; congruence]. Qed.

Lemma thread_turn_objects s self p :
  objects (exec (thread_turn self p) s) =
    if bool_decide (self ∈ threads s) then objects (exec (monitor_turn self p) s)
    else objects s.
Proof.
  unfold thread_turn, exec. rewrite bind_gets.
  destruct (bool_decide (self ∈ threads s)); [|reflexivity].
  unfold try_except, mbind, M_bind.
  destruct (monitor_turn self p s) as [[[|sample]|e] s']; reflexivity.
Qed.

Lemma monitor_turn_absent s self p :
  objects s !! self = None -> objects (exec (monitor_turn self p) s) = objects s.
Proof.
  intros H. unfold monitor_turn, obj, exec. rewrite bind_gets.
  rewrite lookup_total_alt, H. reflexivity.
Qed.

Lemma window_is_down r s ev :
  (forall self p, ev <> EvMonitor self p) ->
  is_down (objects (step s ev) !!! r) = is_down (objects s !!! r).
Proof.
  intros Hev. symmetry.
  apply (keeps_window same_down); try exact Hev; intros; reflexivity.
Qed.

Lemma step_is_down r s ev :
  is_down (objects (step s ev) !!! r) =
    after_event (downtime_event r s ev) (is_down (objects s !!! r)).
Proof.
  destruct ev as [| | | | | | | | | |self p];
    try (apply window_is_down; discriminate).
  unfold step. cbn [handle]. rewrite thread_turn_objects.
  unfold downtime_event.
  destruct (bool_decide (self ∈ threads s)) eqn:Hlive.
  2:{ destruct p as [e|out ts]; [reflexivity|].
      destruct (bool_decide (self = r)) eqn:Hr; [|reflexivity].
      apply bool_decide_eq_true in Hr. subst r. rewrite Hlive. reflexivity. }
  destruct (objects s !! self) as [me|] eqn:Hme.
  2:{ rewrite (monitor_turn_absent _ _ _ Hme).
      destruct p as [e|out ts]; [reflexivity|].
      destruct (bool_decide (self = r)) eqn:Hr; [|reflexivity].
      apply bool_decide_eq_true in Hr. subst r.
      rewrite lookup_total_alt, Hme. cbn. rewrite andb_false_r. reflexivity. }
  unfold exec. rewrite (monitor_turn_closed _ _ _ _ Hme).
  destruct (is_monitoring me) as [[|]|] eqn:Hflag; cbn [snd].
  - cbn. rewrite lookup_total_insert.
    destruct (decide (self = r)) as [->|Hne].
    + rewrite (lookup_total_correct _ _ _ Hme).
      destruct p as [e|out ts]; [reflexivity|].
      rewrite cycle_is_down, bool_decide_eq_true_2 by reflexivity.
      rewrite Hlive, Hflag, (bool_decide_eq_true_2 (Some true = Some true)) by reflexivity.
      cbn [andb].
      destruct (is_lost out), (is_down me); reflexivity.
    + destruct p as [e|out ts]; [reflexivity|].
      rewrite (bool_decide_eq_false_2 (self = r)) by exact Hne. reflexivity.
  - destruct p as [e|out ts]; [reflexivity|].
    destruct (bool_decide (self = r)) eqn:Hr; [|reflexivity].
    apply bool_decide_eq_true in Hr. subst r.
    rewrite (lookup_total_correct _ _ _ Hme), Hflag, Hlive.
    rewrite (bool_decide_eq_false_2 (Some false = Some true)) by discriminate.
    reflexivity.
  - destruct p as [e|out ts]; [reflexivity|].
    destruct (bool_decide (self = r)) eqn:Hr; [|reflexivity].
    apply bool_decide_eq_true in Hr. subst r.
    rewrite (lookup_total_correct _ _ _ Hme), Hflag, Hlive.
    rewrite (bool_decide_eq_false_2 (None = Some true)) by discriminate.
    reflexivity.
Qed.

Lemma after_event_alternates e down tr :
  match e with
  | Some (Opens _) => down = false
  | Some (Closes _) => down = true
  | None => True
  end ->
  alternates (after_event e down) tr = true ->
  alternates down (option_list e ++ tr) = true.
Proof.
  destruct e as [[ts|ts]|]; cbn; intros H Htr; subst; cbn; auto.
Qed.

Lemma downtime_event_enabled r s ev :
  match downtime_event r s ev with
  | Some (Opens _) => is_down (objects s !!! r) = false
  | Some (Closes _) => is_down (objects s !!! r) = true
  | None => True
  end.
Proof.
  destruct ev as [| | | | | | | | | |self [e|out ts]]; cbn; try exact I.
  destruct (_ && _ && _); [|exact I].
  destruct (is_lost out), (is_down (objects s !!! r)); cbn; auto.
Qed.

Lemma trace_alternates r evs : forall s,
  alternates (is_down (objects s !!! r)) (downtime_trace r evs s) = true.
Proof.
  induction evs as [|ev evs IH]; intros s; cbn [downtime_trace]; [reflexivity|].
  apply after_event_alternates; [apply downtime_event_enabled|].
  rewrite <- step_is_down. apply IH.
Qed.

Lemma init_not_down language texts devices r :
  is_down (objects (App_init language texts devices) !!! r) = false.
Proof.
  unfold App_init.
  rewrite <- (keeps_init_device_tiles same_down (fun a n => eq_refl) devices _ r).
  cbn. rewrite lookup_total_empty. reflexivity.
Qed.

Lemma down_after_cons e down tr :
  down_after down (option_list e ++ tr) = down_after (after_event e down) tr.
Proof.
  destruct e as [e|]; [|reflexivity].
  unfold down_after. cbn [option_list app]. destruct tr as [|e' tr]; [destruct e; reflexivity|].
  change (option_list (Some e) ++ e' :: tr) with (e :: e' :: tr).
  rewrite last_cons_cons. destruct (last (e' :: tr)) as [[]|] eqn:E; try reflexivity.
  apply last_None in E. discriminate.
Qed.

Lemma trace_ends_in_state r evs : forall s,
  is_down (objects (run evs s) !!! r) =
    down_after (is_down (objects s !!! r)) (downtime_trace r evs s).
Proof.
  induction evs as [|ev evs IH]; intros s; cbn [run fold_left downtime_trace];
    [reflexivity|].
  rewrite down_after_cons, <- step_is_down. apply (IH (step s ev)).
Qed.

(** C3.  In every state the program reaches, for every device: the
    completed intervals recorded for it are ordered by their starts and do
    not overlap, nor does any overlap the open one; there is at most one
    open interval, and exactly one while the device is down; and in the run
    that led there openings and closings took turns, an opening first, so
    that every closing follows an opening that no other closing followed;
    the device is down when the last of them was an opening. *)
Theorem downtime_intervals_well_formed language texts devices evs r :
  let s0 := App_init language texts devices in
  let me := objects (run evs s0) !!! r in
  intervals_ordered (completed_intervals me) /\
  (forall iv o, iv ∈ completed_intervals me -> o ∈ open_intervals me ->
     DT.micros (snd iv) <= DT.micros o /\ DT.micros (fst iv) < DT.micros o) /\
  (length (open_intervals me) <= 1)%nat /\
  (is_down me = true -> length (open_intervals me) = 1%nat) /\
  alternates false (downtime_trace r evs s0) = true /\
  is_down me = down_after false (downtime_trace r evs s0).
Proof.
  cbv zeta.
  pose proof (device_inv_reachable language texts devices evs r) as [_ _ _ Hh Ho].
  assert (Hc : completed_intervals
                 (objects (run evs (App_init language texts devices)) !!! r) = []).
  { unfold completed_intervals. rewrite Hh. reflexivity. }
  rewrite Hc. split; [exact I|]. split; [intros iv o Hin; inversion Hin|].
  split; [|split; [|split]].
  - unfold open_intervals. destruct (is_down _); [|cbn; lia].
    destruct (current_downtime_start _); cbn; lia.
  - intros Hd. unfold open_intervals. rewrite Hd.
    destruct (Ho Hd) as [d ->]. reflexivity.
  - rewrite <- (init_not_down language texts devices r). apply trace_alternates.
  - rewrite (trace_ends_in_state r evs), init_not_down. reflexivity.
Qed.

(** ** The scenario of a recovery *)

(** C1, on the code.  Device A is probed four times: reply, no reply, no
    reply, reply.  The specification expects one completed interval, from
    the second probe to the fourth.  The program records none: line 394
    appends to [downtime_summary], an attribute no line creates, so the
    fourth cycle raises [AttributeError] after it cleared [is_down]; its
    sample is not recorded, the start of the interval stays behind, and the
    summary shows no issue. *)
Theorem recovery_records_no_interval :
  let s := run [EvMonitor 0%nat (PingOutput reply_ok (at_second 5));
                EvMonitor 0%nat (PingOutput reply_lost (at_second 10));
                EvMonitor 0%nat (PingOutput reply_lost (at_second 15));
                EvMonitor 0%nat (PingOutput reply_ok (at_second 20))]
               demo_running in
  let me := objects s !!! 0%nat in
  downtime_summary me = None /\
  completed_intervals me = [] /\
  completed_intervals me <> [(at_second 10, at_second 20)] /\
  is_down me = false /\
  current_downtime_start me = Some (at_second 10) /\
  availability me = [1; 0; 0] /\
  error_log s =
    ["Ошибка мониторинга 10.0.0.1: 'DeviceMonitor' object has no attribute 'downtime_summary'"] /\
  fst (summary_text s) = Ok "Нет неполадок".
Proof. vm_compute. repeat split; discriminate. Qed.

(** X2.  No interval is ever recorded: in every state the program reaches,
    the list of completed intervals of every device is empty. *)
Lemma no_interval_is_ever_recorded language texts devices evs r :
  completed_intervals (objects (run evs (App_init language texts devices)) !!! r) = [].
Proof.
  unfold completed_intervals.
  rewrite (inv_history _ (device_inv_reachable language texts devices evs r)).
  reflexivity.
Qed.

(** Had [__init__] created the list, the scenario of C1 would record the
    interval the specification expects. *)
Example recovery_with_the_list_created :
  let s0 := with_objects
              (alter (with_downtime_summary (Some [])) 0%nat (objects demo_running))
              demo_running in
  let s := run [EvMonitor 0%nat (PingOutput reply_ok (at_second 5));
                EvMonitor 0%nat (PingOutput reply_lost (at_second 10));
                EvMonitor 0%nat (PingOutput reply_lost (at_second 15));
                EvMonitor 0%nat (PingOutput reply_ok (at_second 20))] s0 in
  completed_intervals (objects s !!! 0%nat) = [(at_second 10, at_second 20)] /\
  open_intervals (objects s !!! 0%nat) = [] /\
  availability (objects s !!! 0%nat) = [1; 0; 0; 1] /\
  error_log s = [].
Proof. vm_compute. repeat split. Qed.

(** ** The history of downtime, if its list existed *)

Lemma intervals_ordered_each ivs :
  intervals_ordered ivs ->
  Forall (fun iv => DT.micros (fst iv) <= DT.micros (snd iv)) ivs.
Proof.
  induction ivs as [|iv ivs IH]; [constructor|].
  cbn. intros (H1 & _ & H3). constructor; auto.
Qed.

Lemma intervals_ordered_snoc ivs iv :
  intervals_ordered ivs ->
  Forall (fun old => DT.micros (snd old) <= DT.micros (fst iv) /\
                     DT.micros (fst old) < DT.micros (fst iv)) ivs ->
  DT.micros (fst iv) <= DT.micros (snd iv) ->
  intervals_ordered (ivs ++ [iv]).
Proof.
  intros Ho Hb Hiv. induction ivs as [|old ivs IH]; cbn.
  - auto.
  - destruct Ho as (H1 & H2 & H3). inversion Hb as [|? ? Hold Hrest]; subst.
    split; [exact H1|]. split; [|apply IH; assumption].
    destruct ivs as [|next ivs]; cbn; [exact Hold|exact H2].
Qed.

Lemma completed_intervals_snoc me recorded d ts :
  downtime_summary me = Some (recorded ++ [(Some d, ts)]) ->
  completed_intervals me =
    omap (fun iv => match fst iv with
                    | Some start => Some (start, snd iv)
                    | None => None
                    end) recorded ++ [(d, ts)].
Proof. intros H. unfold completed_intervals. rewrite H. cbn. rewrite omap_app. reflexivity. Qed.

Lemma history_inv_weaken b b' me : b <= b' -> history_inv b me -> history_inv b' me.
Proof.
  intros Hb [H1 H2 H3 H4 H5]. split; auto.
  - eapply Forall_impl; [exact H4|]. cbn. intros. lia.
  - intros Hd. destruct (H5 Hd) as (d & ? & ? & ?). exists d. repeat split; auto. lia.
Qed.

Lemma history_inv_sample b x me : history_inv b me -> history_inv b (record_sample x me).
Proof. intros [H1 H2 H3 H4 H5]. destruct me. split; assumption. Qed.

(** A cycle that reads the instant [ts], later than all before it. *)
Lemma history_inv_cycle b out ts me :
  b < DT.micros ts ->
  history_inv b me ->
  history_inv (DT.micros ts) (co_me (cycle_outcome_of true (PingOutput out ts) me)).
Proof.
  intros Hts Hinv. unfold cycle_outcome_of, downtime_transition.
  destruct (is_lost out) eqn:Hl, (is_down me) eqn:Hd; cbn [andb negb].
  - apply history_inv_sample, (history_inv_weaken b); [lia|exact Hinv].
  - apply history_inv_sample.
    pose proof (intervals_ordered_each _ (hist_ordered _ _ Hinv)) as Heach.
    destruct Hinv as [H1 H2 H3 H4 H5]. destruct me. cbn in *.
    split; cbn; auto.
    + eapply Forall_impl; [exact H4|]. cbn. intros. lia.
    + intros _. exists ts. split; [reflexivity|]. split; [lia|].
      unfold completed_intervals in *. cbn in *.
      apply Forall_forall. intros iv Hin.
      pose proof (proj1 (Forall_forall _ _) H4 iv Hin).
      pose proof (proj1 (Forall_forall _ _) Heach iv Hin). cbn in *. lia.
  - destruct (hist_exists _ _ Hinv) as [recorded Hrec].
    destruct (hist_open _ _ Hinv Hd) as (d & Hstart & Hdb & Hbefore).
    assert (Hsum : downtime_summary (with_is_down false me) = Some recorded)
      by (destruct me; exact Hrec).
    rewrite Hsum. apply history_inv_sample.
    assert (Hcur : current_downtime_start (with_is_down false me) = Some d)
      by (destruct me; exact Hstart).
    rewrite Hcur.
    destruct Hinv as [H1 H2 H3 H4 H5].
    assert (Hc : completed_intervals me =
                 omap (fun iv => match fst iv with
                                 | Some start => Some (start, snd iv)
                                 | None => None
                                 end) recorded)
      by (unfold completed_intervals; rewrite Hrec; reflexivity).
    rewrite Hrec in H2. cbn [default] in H2. rewrite Hc in *.
    match goal with |- history_inv _ ?x => set (me' := x) end.
    assert (Hs' : downtime_summary me' = Some (recorded ++ [(Some d, ts)]))
      by (destruct me; reflexivity).
    assert (Hd' : is_down me' = false) by (destruct me; reflexivity).
    split.
    + rewrite Hs'. eauto.
    + rewrite Hs'. cbn [default]. apply Forall_app. split; [exact H2|].
      repeat constructor. cbn. eauto.
    + rewrite (completed_intervals_snoc _ _ _ _ Hs').
      apply intervals_ordered_snoc; [exact H3|exact Hbefore|cbn; lia].
    + rewrite (completed_intervals_snoc _ _ _ _ Hs').
      apply Forall_app. split.
      * eapply Forall_impl; [exact H4|]. cbn. intros. lia.
      * repeat constructor. cbn. lia.
    + rewrite Hd'. discriminate.
  - apply history_inv_sample, (history_inv_weaken b); [lia|exact Hinv].
Qed.

Lemma history_inv_run ps : forall b me,
  Forall (fun t => b < t) (ping_times ps) ->
  clock_advances ps ->
  history_inv b me ->
  exists b', history_inv b' (device_run ps me).
Proof.
  induction ps as [|[e|out ts] ps IH]; intros b me Hb Hclock Hinv; cbn.
  - eauto.
  - apply (IH b); assumption.
  - unfold clock_advances in *. cbn in Hb, Hclock.
    inversion Hb as [|? ? Hts Hrest]; subst.
    apply StronglySorted_inv in Hclock as [Hsorted Hlater].
    apply (IH (DT.micros ts)); [exact Hlater|exact Hsorted|].
    apply (history_inv_cycle b); assumption.
Qed.

Lemma history_inv_fresh me :
  downtime_summary me = Some [] -> is_down me = false -> forall b, history_inv b me.
Proof.
  intros Hs Hd b. split.
  - rewrite Hs. eauto.
  - rewrite Hs. constructor.
  - unfold completed_intervals. rewrite Hs. exact I.
  - unfold completed_intervals. rewrite Hs. constructor.
  - rewrite Hd. discriminate.
Qed.

(** The loop of [_monitor] on an object of [app.monitors], seen from the
    object. *)
Lemma monitor_loop_device_run self ps : forall s me,
  objects s !! self = Some me ->
  self ∈ monitors s ->
  is_monitoring me = Some true ->
  objects (exec (_monitor self ps) s) !!! self = device_run ps me.
Proof.
  induction ps as [|p ps IH]; intros s me Hme Hin Hflag.
  - cbn. apply lookup_total_correct, Hme.
  - unfold exec. cbn [_monitor device_run fold_left].
    unfold mbind at 1, M_bind at 1.
    rewrite (monitor_turn_closed _ _ _ _ Hme), Hflag. cbv zeta.
    rewrite (bool_decide_eq_true_2 _ Hin).
    set (o := cycle_outcome_of true p me).
    specialize (IH (apply_outcome self o s) (co_me o)).
    unfold exec in IH. unfold mbind, M_bind.
    destruct (_monitor self ps (apply_outcome self o s)) as [[r|e] s'] eqn:Hrun;
      cbn in *; apply IH; try apply apply_outcome_lookup;
      try (destruct s; exact Hin);
      unfold o; rewrite cycle_outcome_flag; exact Hflag.
Qed.

(** X3.  Had [__init__] created [downtime_summary], the intervals would be
    what the specification says: for a monitor that starts up, with an empty
    list, and a clock that moves forward, the completed intervals are
    ordered by their starts and do not overlap, and the open one comes after
    them. *)
Theorem intervals_ordered_if_list_exists s self me ps :
  objects s !! self = Some me ->
  self ∈ monitors s ->
  is_monitoring me = Some true ->
  downtime_summary me = Some [] ->
  is_down me = false ->
  clock_advances ps ->
  let me' := objects (exec (_monitor self ps) s) !!! self in
  intervals_ordered (completed_intervals me') /\
  (forall iv o, iv ∈ completed_intervals me' -> o ∈ open_intervals me' ->
     DT.micros (snd iv) <= DT.micros o /\ DT.micros (fst iv) < DT.micros o).
Proof.
  intros Hme Hin Hflag Hs Hd Hclock. cbv zeta.
  rewrite (monitor_loop_device_run self ps s me Hme Hin Hflag).
  assert (Hb : exists b, Forall (fun t => b < t) (ping_times ps)).
  { destruct (ping_times ps) as [|t ts] eqn:E; [exists 0; constructor|].
    exists (t - 1). unfold clock_advances in Hclock. rewrite E in Hclock.
    apply StronglySorted_inv in Hclock as [_ Hlater].
    constructor; [lia|]. eapply Forall_impl; [exact Hlater|]. cbn. intros. lia. }
  destruct Hb as [b Hb].
  destruct (history_inv_run ps b me Hb Hclock (history_inv_fresh me Hs Hd b))
    as [b' [H1 H2 H3 H4 H5]].
  split; [exact H3|].
  intros iv o Hiv Ho. unfold open_intervals in Ho.
  destruct (is_down (device_run ps me)) eqn:Hdown; [|inversion Ho].
  destruct (H5 eq_refl) as (d & Hstart & _ & Hbefore).
  rewrite Hstart in Ho. cbn in Ho. apply list_elem_of_singleton in Ho as ->.
  exact (proj1 (Forall_forall _ _) Hbefore iv Hiv).
Qed.

Lemma intervals_ordered_if_list_exists_witness :
  let me' := objects (exec (_monitor 0%nat four_pings) demo_with_list) !!! 0%nat in
  clock_advances four_pings /\
  completed_intervals me' = [(at_second 10, at_second 20)] /\
  intervals_ordered (completed_intervals me') /\
  (forall iv o, iv ∈ completed_intervals me' -> o ∈ open_intervals me' ->
     DT.micros (snd iv) <= DT.micros o /\ DT.micros (fst iv) < DT.micros o).
Proof.
  assert (Hclock : clock_advances four_pings)
    by (vm_compute; repeat constructor).
  split; [exact Hclock|]. split; [vm_compute; reflexivity|].
  assert (Hme : objects demo_with_list !! 0%nat =
            Some (with_downtime_summary (Some [])
                    (with_is_monitoring (Some true) (DeviceMonitor_init "10.0.0.1" "A"))))
    by (vm_compute; reflexivity).
  assert (Hin : 0%nat ∈ monitors demo_with_list) by (vm_compute; left).
  apply (intervals_ordered_if_list_exists demo_with_list 0%nat _ four_pings
           Hme Hin eq_refl eq_refl eq_refl Hclock).
Defined.

(** ** A probe that cannot be run *)

Lemma with_error_log_objects_id (s : App) self me l :
  objects s !! self = Some me ->
  with_error_log l (with_full_log (full_log s ++ [])
    (with_objects (<[self := me]> (objects s)) s)) = with_error_log l s.
Proof.
  intros H. destruct s. cbn in *. rewrite insert_id by exact H. rewrite app_nil_r.
  reflexivity.
Qed.

(** C8.  A cycle of a running monitor in which the probe cannot be
    executed: the exception is caught, a line goes to the error log and
    nothing else changes (no sample in the buffer, the device marked neither
    up nor down, nothing in the shared log), and the loop goes on to its
    next turn. *)
Theorem failed_probe_is_logged_and_skipped s self me e ps :
  objects s !! self = Some me ->
  is_monitoring me = Some true ->
  let s' := with_error_log
              (error_log s ++ ["Ошибка мониторинга " +:+ ip me +:+ ": " +:+ exn_str e]) s in
  monitor_cycle self (PingRaises e) s = (Ok None, s') /\
  availability (objects s' !!! self) = availability me /\
  is_down (objects s' !!! self) = is_down me /\
  full_log s' = full_log s /\
  _monitor self (PingRaises e :: ps) s = _monitor self ps s'.
Proof.
  intros Hme Hflag. cbv zeta.
  assert (Ha : forall listed,
    apply_outcome self (cycle_outcome_of listed (PingRaises e) me) s =
    with_error_log
      (error_log s ++ ["Ошибка мониторинга " +:+ ip me +:+ ": " +:+ exn_str e]) s).
  { intros listed. cbn [cycle_outcome_of]. unfold apply_outcome. cbn [co_me co_log co_err].
    apply (with_error_log_objects_id _ _ _ _ Hme). }
  split.
  { rewrite (monitor_cycle_closed _ _ _ _ Hme). cbv zeta. rewrite Ha. reflexivity. }
  assert (Ho : objects (with_error_log
       (error_log s ++ ["Ошибка мониторинга " +:+ ip me +:+ ": " +:+ exn_str e]) s)
       = objects s) by (destruct s; reflexivity).
  rewrite Ho, (lookup_total_correct _ _ _ Hme).
  split; [reflexivity|]. split; [reflexivity|]. split; [destruct s; reflexivity|].
  cbn [_monitor]. unfold mbind at 1, M_bind at 1.
  rewrite (monitor_turn_closed _ _ _ _ Hme), Hflag. cbv zeta. rewrite Ha.
  cbn [cycle_outcome_of co_sample add_sample].
  unfold mbind, M_bind.
  destruct (_monitor self ps _) as [[r|x] s'']; reflexivity.
Qed.

Lemma failed_probe_is_logged_and_skipped_witness :
  let s' := with_error_log
              (error_log demo_running ++
                 ["Ошибка мониторинга 10.0.0.1: [WinError 2] ping"]) demo_running in
  monitor_cycle 0%nat (PingRaises (OSError "[WinError 2] ping")) demo_running
    = (Ok None, s') /\
  availability (objects s' !!! 0%nat) = [] /\
  is_down (objects s' !!! 0%nat) = false /\
  full_log s' = full_log demo_running /\
  _monitor 0%nat [PingRaises (OSError "[WinError 2] ping");
                  PingOutput reply_ok (at_second 5)] demo_running
    = _monitor 0%nat [PingOutput reply_ok (at_second 5)] s'.
Proof.
  apply (failed_probe_is_logged_and_skipped demo_running 0%nat
           (with_is_monitoring (Some true) (DeviceMonitor_init "10.0.0.1" "A"))
           (OSError "[WinError 2] ping") [PingOutput reply_ok (at_second 5)]).
  - vm_compute. reflexivity.
  - reflexivity.
Defined.

(** ** Adding a device that is there already *)

(** C5, amended.  Adding a device whose address is already in the settings
    is rejected before anything changes: [_add_device] returns, without an
    exception and without a line in the error log, and leaves the whole
    state as it was: the list of monitors, the devices of the settings, every
    monitor, and no new monitor is made or started. *)
Theorem duplicate_device_is_ignored s addr name_answer io :
  is_Some (settings_devices s !! addr) ->
  _add_device (Some addr) name_answer io s = (Ok tt, s).
Proof.
  intros Hdup. unfold _add_device. rewrite bind_gets.
  rewrite (bool_decide_eq_true_2 _ Hdup), orb_true_r. reflexivity.
Qed.

Lemma duplicate_device_is_ignored_witness :
  is_Some (settings_devices demo_running !! "10.0.0.1") /\
  _add_device (Some "10.0.0.1") (Some "B") None demo_running = (Ok tt, demo_running).
Proof.
  assert (H : is_Some (settings_devices demo_running !! "10.0.0.1"))
    by (vm_compute; eauto).
  split; [exact H|].
  apply (duplicate_device_is_ignored demo_running "10.0.0.1" (Some "B") None H).
Defined.

(** C5 as stated fails: for an address that exists the call raises nothing
    ([DuplicateDeviceError] or other) and logs nothing; it returns as a
    successful call does. *)
Lemma duplicate_device_raises_nothing :
  is_Some (settings_devices demo_running !! "10.0.0.1") /\
  ~ (exists e, fst (_add_device (Some "10.0.0.1") (Some "B") None demo_running) = Raise e) /\
  error_log (exec (_add_device (Some "10.0.0.1") (Some "B") None) demo_running) = [].
Proof.
  split; [vm_compute; eauto|]. split.
  - intros [e He]. vm_compute in He. discriminate.
  - vm_compute. reflexivity.
Qed.

(** ** Reset *)

(** C6, on the code.  After a reset the global flag says that monitoring is
    off, but the monitor of the device still has its flag on, its thread is
    alive and the auto-save timer is still pending: the next cycle appends a
    sample and a batch to the log.  [_stop_monitoring] stops all three. *)
Theorem reset_all_leaves_monitors_running :
  let s1 := run [EvMonitor 0%nat (PingOutput reply_ok (at_second 5)); EvResetAll]
                demo_running in
  let s2 := step s1 (EvMonitor 0%nat (PingOutput reply_lost (at_second 10))) in
  timer_running s1 = false /\
  start_time s1 = None /\
  availability (objects s1 !!! 0%nat) = [] /\
  is_monitoring (objects s1 !!! 0%nat) = Some true /\
  threads s1 = [0%nat] /\
  pending_timers s1 = [0%nat] /\
  availability (objects s2 !!! 0%nat) = [0] /\
  length (full_log s2) = 6%nat.
Proof. vm_compute. repeat split. Qed.

(** [_stop_monitoring], where [_reset_all] does not: the flags go off, the
    timer is cancelled, and the thread leaves its loop at its next turn. *)
Example stop_monitoring_stops :
  let s1 := run [EvMonitor 0%nat (PingOutput reply_ok (at_second 5)); EvStop]
                demo_running in
  let s2 := step s1 (EvMonitor 0%nat (PingOutput reply_lost (at_second 10))) in
  timer_running s1 = false /\
  is_monitoring (objects s1 !!! 0%nat) = Some false /\
  pending_timers s1 = [] /\
  threads s2 = [] /\
  availability (objects s2 !!! 0%nat) = [1].
Proof. vm_compute. repeat split. Qed.

#[local] Instance same_but_buffer_preorder : PreOrder same_but_buffer.
Proof.
  split.
  - intros x. repeat split.
  - intros x y z (?&?&?&?&?&?) (?&?&?&?&?&?). repeat split; congruence.
Qed.

#[local] Instance stays_reset_preorder : PreOrder stays_reset.
Proof. split; [intros x; exact id|intros x y z Hxy Hyz H; exact (Hyz (Hxy H))]. Qed.

Lemma reset_run self s :
  reset self s = (Ok tt, with_objects (alter reset_view self (objects s)) s).
Proof.
  unfold reset, set_obj, mbind, M_bind, modify. cbn.
  rewrite alter_alter_eq. reflexivity.
Qed.

Lemma reset_makes_reset self s : is_reset (objects (exec (reset self) s) !!! self).
Proof.
  unfold exec, reset, set_obj, mbind, M_bind, modify. cbn.
  rewrite alter_alter_eq, lookup_total_alter_eq.
  destruct (objects s !! self); split; reflexivity.
Qed.

Lemma for_each_reset_resets ms : forall s r,
  r ∈ ms -> is_reset (objects (exec (for_each ms reset) s) !!! r).
Proof.
  induction ms as [|m ms IH]; intros s r Hin; [inversion Hin|].
  cbn [for_each]. unfold exec, mbind, M_bind.
  destruct (reset m s) as [[[]|e] s'] eqn:E.
  2:{ unfold reset, set_obj, mbind, M_bind, modify in E. discriminate. }
  destruct (decide (r ∈ ms)) as [Hr|Hr]; [apply IH, Hr|].
  apply elem_of_cons in Hin as [->|Hin]; [|contradiction].
  assert (K : keeps stays_reset (for_each ms reset)).
  { apply keeps_for_each; [typeclasses eauto|]. intros x. apply keeps_reset; [typeclasses eauto|].
    intros me _. split; reflexivity. }
  apply (K s' m). replace s' with (exec (reset m) s) by (unfold exec; rewrite E; reflexivity).
  apply reset_makes_reset.
Qed.

(** X4.  What [_reset_all] does, and what it leaves alone: the buffers of the
    monitors and the clock of the window are reset; the history of downtime
    stays, and so do the flag of every monitor, the monitor threads and the
    pending timer. *)
Theorem reset_all_effect s r :
  let s' := exec _reset_all s in
  (r ∈ monitors s ->
     availability (objects s' !!! r) = [] /\
     packet_loss_label (objects s' !!! r) = "Потеря пакетов: 0%") /\
  start_time s' = None /\
  timer_running s' = false /\
  same_but_buffer (objects s !!! r) (objects s' !!! r) /\
  threads s' = threads s /\
  pending_timers s' = pending_timers s /\
  full_log s' = full_log s.
Proof.
  cbv zeta.
  assert (E : exists s1, for_each (monitors s) reset s = (Ok tt, s1) /\
                threads s1 = threads s /\ pending_timers s1 = pending_timers s /\
                full_log s1 = full_log s).
  { generalize (monitors s) as ms. intros ms. revert s.
    induction ms as [|m ms IH]; intros s; cbn [for_each].
    - exists s. repeat split.
    - unfold mbind at 1, M_bind at 1. rewrite reset_run.
      destruct (IH (with_objects (alter reset_view m (objects s)) s))
        as (s1 & -> & ? & ? & ?).
      exists s1. destruct s; cbn in *. repeat split; assumption. }
  destruct E as (s1 & E & Ht & Hp & Hf).
  assert (Hs1 : objects s1 = objects (exec (for_each (monitors s) reset) s))
    by (unfold exec; rewrite E; reflexivity).
  assert (Hx : exec _reset_all s =
    with_timer_label "0:00:00:00" (with_timer_running false (with_start_time None s1))).
  { unfold exec, _reset_all. rewrite bind_gets. unfold mbind, M_bind. rewrite E. reflexivity. }
  rewrite Hx.
  destruct s1 as [o1 m1 f1 a1 st1 tr1 l1 sl1 sd1 lg1 tl1 th1 pt1 tm1 el1 dk1]; cbn in *. subst.
  split; [intros Hin; apply for_each_reset_resets, Hin|].
  repeat split; try reflexivity.
  all: apply (keeps_for_each same_but_buffer (monitors s) reset
         (fun x => keeps_reset same_but_buffer (fun me => ltac:(repeat split)) x) s r).
Qed.

(** ** Auto-save *)

Lemma save_log_run env s :
  _save_log env s =
    match save_io env with
    | None =>
        (Ok true,
         with_last_save_time (Some (save_done env))
           (with_disk
              (disk s ++ [WriteText ("log_" +:+ DT.strftime_stamp (save_stamp env) +:+ ".txt")
                            (Str.cat (map fst (full_log s)))]) s))
    | Some e =>
        (Ok false,
         with_error_log
           (error_log s ++ ["Ошибка сохранения журнала: " +:+ exn_str (io_exn e)])
           (with_disk
              (disk s ++
               broken_write ("log_" +:+ DT.strftime_stamp (save_stamp env) +:+ ".txt") e)
              s))
    end.
Proof.
  unfold _save_log, try_except. rewrite bind_gets.
  destruct (save_io env); destruct s; reflexivity.
Qed.







(** ** The summary *)

Lemma closed_lines_run nm ivs s :
  Forall (fun iv => is_Some (fst iv)) ivs ->
  closed_lines nm ivs s =
    (Ok (map (fun iv => closed_line nm (fst iv) (snd iv))
           (omap (fun iv => match fst iv with
                            | Some start => Some (start, snd iv)
                            | None => None
                            end) ivs)), s).
Proof.
  induction 1 as [|[start end_] ivs [d Hd] _ IH]; [reflexivity|].
  cbn in Hd. subst start. cbn [closed_lines]. unfold mbind, M_bind. rewrite IH.
  reflexivity.
Qed.

Lemma get_downtime_summary_run r s :
  history_well_formed (objects s !!! r) ->
  get_downtime_summary r s = (Ok (expected_device_lines (objects s !!! r)), s).
Proof.
  intros [Hh Ho]. unfold get_downtime_summary, obj. rewrite bind_gets.
  unfold mbind at 1, M_bind at 1. rewrite (closed_lines_run _ _ _ Hh).
  rewrite bind_gets. unfold expected_device_lines, completed_intervals, open_intervals.
  destruct (is_down (objects s !!! r)) eqn:Hd.
  - destruct (Ho eq_refl) as [d ->]. reflexivity.
  - cbn. rewrite app_nil_r. destruct (current_downtime_start _); reflexivity.
Qed.

Lemma summary_lines_run s : forall ms,
  (forall r, r ∈ ms -> history_well_formed (objects s !!! r)) ->
  summary_lines ms s =
    (Ok (concat (map (fun r => expected_device_lines (objects s !!! r)) ms)), s).
Proof.
  induction ms as [|m ms IH]; intros Hwf; [reflexivity|].
  cbn [summary_lines]. unfold mbind at 1, M_bind at 1.
  rewrite get_downtime_summary_run by (apply Hwf; left).
  unfold mbind, M_bind. rewrite IH by (intros r Hr; apply Hwf; right; exact Hr).
  reflexivity.
Qed.

Lemma truthy_append a b : Str.truthy a = true -> Str.truthy (a +:+ b) = true.
Proof. destruct a; [discriminate|reflexivity]. Qed.

Lemma truthy_join sep l ls : Str.truthy l = true -> Str.truthy (Str.join sep (l :: ls)) = true.
Proof.
  intros H. unfold Str.join. cbn [String.concat]. destruct ls; [exact H|].
  apply (truthy_append l), H.
Qed.

Lemma expected_device_lines_truthy me :
  Forall (fun l => Str.truthy l = true) (expected_device_lines me).
Proof.
  unfold expected_device_lines. apply Forall_app. split; apply Forall_forall;
    intros l [x [-> _]]%list_elem_of_fmap; reflexivity.
Qed.

Lemma expected_device_lines_length me :
  history_well_formed me ->
  length (expected_device_lines me) =
    (length (default [] (downtime_summary me)) + (if is_down me then 1 else 0))%nat.
Proof.
  intros [Hh Ho]. unfold expected_device_lines, completed_intervals, open_intervals.
  rewrite length_app, !length_map. f_equal.
  - induction Hh as [|[start e] ivs [d Hd] _ IH]; [reflexivity|].
    cbn in Hd. subst. cbn. f_equal. exact IH.
  - destruct (is_down me); [|reflexivity]. destruct (Ho eq_refl) as [d ->]. reflexivity.
Qed.

(** C9.  Where the histories of the monitors are well formed (they are in
    every state the program reaches), the text of the summary is made, for
    each monitor in turn, of one line for each completed interval (start,
    end, name of the device) and one more line, marked as going on, when the
    device is down; when no device has any interval, the text is the
    placeholder (the entry [no_issues] of the language file, or its default);
    and the state after the call is the state before it. *)
Theorem summary_lists_every_interval s :
  (forall r, r ∈ monitors s -> history_well_formed (objects s !!! r)) ->
  let lines := concat (map (fun r => expected_device_lines (objects s !!! r)) (monitors s)) in
  summary_text s =
    (Ok match lines with
        | [] => default "Нет неполадок" (lang s !! "no_issues")
        | _ :: _ => Str.join (String (ascii_of_nat 10) "") lines
        end, s) /\
  forall r, r ∈ monitors s ->
    length (expected_device_lines (objects s !!! r)) =
      (length (default [] (downtime_summary (objects s !!! r))) +
       (if is_down (objects s !!! r) then 1 else 0))%nat.
Proof.
  intros Hwf. cbv zeta. split.
  - unfold summary_text. rewrite bind_gets. unfold mbind at 1, M_bind at 1.
    rewrite (summary_lines_run s _ Hwf). rewrite bind_gets. unfold mret, M_ret.
    assert (Ht : Forall (fun l => Str.truthy l = true)
                   (concat (map (fun r => expected_device_lines (objects s !!! r))
                              (monitors s)))).
    { apply Forall_concat, Forall_forall. intros ls [x [-> _]]%list_elem_of_fmap.
      apply expected_device_lines_truthy. }
    destruct (concat _) as [|l ls]; [reflexivity|].
    rewrite truthy_join; [reflexivity|]. inversion Ht; assumption.
  - intros r Hr. apply expected_device_lines_length, Hwf, Hr.
Qed.

Lemma summary_lists_every_interval_witness :
  (forall r, r ∈ monitors summary_demo -> history_well_formed (objects summary_demo !!! r)) /\
  summary_text summary_demo =
    (Ok ("С 10:00:10 по 10:00:20 03.11: B" +:+ String (ascii_of_nat 10) "" +:+
         "С 10:00:40 по наст. время 03.11: B"), summary_demo).
Proof.
  assert (H : forall r, r ∈ monitors summary_demo ->
                history_well_formed (objects summary_demo !!! r)).
  { intros r Hr. change (monitors summary_demo) with [0%nat; 1%nat] in Hr.
    apply elem_of_cons in Hr as [->|Hr]; [|apply elem_of_cons in Hr as [->|Hr]; [|inversion Hr]].
    - vm_compute. split; [constructor|discriminate].
    - vm_compute. split; [repeat constructor; eauto|eauto]. }
  split; [exact H|].
  etransitivity; [apply (proj1 (summary_lists_every_interval summary_demo H))|].
  vm_compute. reflexivity.
Defined.

(** The histories are well formed in every state the program reaches. *)
Lemma reachable_history_well_formed s r :
  reachable s -> history_well_formed (objects s !!! r).
Proof.
  intros (language & texts & devices & evs & ->).
  destruct (device_inv_reachable language texts devices evs r) as [_ _ _ Hh Ho].
  split; [rewrite Hh; constructor|exact Ho].
Qed.

(** ** The lock of the shared log *)

Import LogLock.

Lemma concat_map_lookup {B} (f : thread -> list B) ths i th :
  ths !! i = Some th -> concat (map f ths) ≡ₚ f th ++ others f i ths.
Proof.
  intros H. rewrite <- (take_drop_middle ths i th H) at 1.
  rewrite map_app, concat_app. cbn. unfold others.
  rewrite (Permutation_app_comm (concat _)), <- app_assoc.
  apply Permutation_app_head, Permutation_app_comm.
Qed.

Lemma concat_map_insert {B} (f : thread -> list B) ths i th th' :
  ths !! i = Some th -> concat (map f (<[i := th']> ths)) ≡ₚ f th' ++ others f i ths.
Proof.
  intros H. rewrite insert_take_drop by (eapply lookup_lt_Some, H).
  rewrite map_app, concat_app. cbn. unfold others.
  rewrite (Permutation_app_comm (concat _)), <- app_assoc.
  apply Permutation_app_head, Permutation_app_comm.
Qed.

Lemma start_todo work : map todo (map (mk_thread Outside) work) = work.
Proof. induction work as [|bs work IH]; cbn; [|rewrite IH]; reflexivity. Qed.

Lemma start_in_flight work :
  concat (map in_flight (map (mk_thread Outside) work)) = [].
Proof. induction work as [|bs work IH]; cbn; [|rewrite IH]; reflexivity. Qed.

Lemma inv_start log0 work : inv log0 work (start log0 work).
Proof.
  split.
  - intros i th H. cbn in H. rewrite list_lookup_fmap in H.
    destruct (work !! i); cbn in H; [|discriminate]. injection H as <-. cbn. congruence.
  - exists []. cbn. split; [rewrite app_nil_r; reflexivity|].
    rewrite start_in_flight, start_todo. reflexivity.
Qed.

Lemma inv_step log0 work w i : inv log0 work w -> inv log0 work (thread_step w i).
Proof.
  intros [Hex (order & Hlog & Hperm)]. unfold thread_step.
  destruct (pool w !! i) as [th|] eqn:Hth; [|split; eauto].
  destruct th as [[|copied [|x rest]] td]; cbn [at_pc todo].
  - (* outside *)
    destruct td as [|b bs]; [split; eauto|].
    destruct (holder w) as [j|] eqn:Hh; [split; eauto; rewrite Hh; exact Hex|].
    split; cbn [pool holder shared_log].
    + intros j th'. rewrite list_lookup_insert by (eapply lookup_lt_Some, Hth).
      case_decide as Hj.
      * destruct Hj as [-> _]. reflexivity.
      * intros Hj' Hin. specialize (Hex _ _ Hj' Hin). discriminate.
    + exists order. split.
      * unfold copied_so_far in *. cbn [holder pool]. rewrite Hh in Hlog.
        rewrite list_lookup_insert_eq by (eapply lookup_lt_Some, Hth). exact Hlog.
      * rewrite <- Hperm.
        rewrite (concat_map_insert in_flight _ _ _ _ Hth), (concat_map_insert todo _ _ _ _ Hth).
        rewrite (concat_map_lookup in_flight _ _ _ Hth), (concat_map_lookup todo _ _ _ Hth).
        apply Permutation_app_head. cbn. apply Permutation_middle.
  - (* inside, batch copied: release *)
    assert (Hh : holder w = Some i) by (eapply Hex; [exact Hth|discriminate]).
    split; cbn [pool holder shared_log].
    + intros j th'. rewrite list_lookup_insert by (eapply lookup_lt_Some, Hth).
      case_decide as Hj.
      * destruct Hj as [-> _]. intros [= <-]. cbn. congruence.
      * intros Hj' Hin. specialize (Hex _ _ Hj' Hin). rewrite Hh in Hex.
        injection Hex as ->. exfalso. apply Hj. split; [reflexivity|].
        eapply lookup_lt_Some, Hth.
    + exists (order ++ [copied]). split.
      * unfold copied_so_far in *. cbn [holder]. rewrite Hh, Hth in Hlog. cbn in Hlog.
        rewrite concat_app. cbn. rewrite !app_nil_r. exact Hlog.
      * rewrite <- Hperm.
        rewrite (concat_map_insert in_flight _ _ _ _ Hth), (concat_map_insert todo _ _ _ _ Hth).
        rewrite (concat_map_lookup in_flight _ _ _ Hth), (concat_map_lookup todo _ _ _ Hth).
        cbn. rewrite app_nil_r, <- !app_assoc. reflexivity.
  - (* inside: one more item *)
    assert (Hh : holder w = Some i) by (eapply Hex; [exact Hth|discriminate]).
    split; cbn [pool holder shared_log].
    + intros j th'. rewrite list_lookup_insert by (eapply lookup_lt_Some, Hth).
      case_decide as Hj.
      * destruct Hj as [-> _]. intros _ _. exact Hh.
      * intros Hj' Hin. exact (Hex _ _ Hj' Hin).
    + exists order. split.
      * unfold copied_so_far in *. cbn [holder pool]. rewrite Hh in *. rewrite Hth in Hlog.
        rewrite list_lookup_insert_eq by (eapply lookup_lt_Some, Hth).
        cbn in *. rewrite Hlog, <- !app_assoc. reflexivity.
      * rewrite <- Hperm.
        rewrite (concat_map_insert in_flight _ _ _ _ Hth), (concat_map_insert todo _ _ _ _ Hth).
        rewrite (concat_map_lookup in_flight _ _ _ Hth), (concat_map_lookup todo _ _ _ Hth).
        cbn. rewrite <- (app_assoc copied [x] rest). reflexivity.
Qed.

Lemma inv_run log0 work sched : forall w,
  inv log0 work w -> inv log0 work (run_schedule sched w).
Proof.
  induction sched as [|i sched IH]; intros w Hw; [exact Hw|].
  cbn. apply IH, inv_step, Hw.
Qed.

Lemma finished_nothing_pending w :
  finished w ->
  copied_so_far w = [] /\ concat (map in_flight (pool w)) = [] /\ concat (map todo (pool w)) = [].
Proof.
  intros Hf. unfold finished in Hf. split; [|split].
  - unfold copied_so_far. destruct (holder w) as [i|]; [|reflexivity].
    destruct (pool w !! i) as [th|] eqn:Hth; [|reflexivity]. cbn.
    destruct (proj1 (Forall_lookup _ _) Hf i th Hth) as [Hpc _].
    unfold written. rewrite Hpc. reflexivity.
  - induction Hf as [|th ths [Hpc _] _ IH]; [reflexivity|].
    cbn. unfold in_flight at 1. rewrite Hpc. exact IH.
  - induction Hf as [|th ths [_ Htd] _ IH]; [reflexivity|].
    cbn. rewrite Htd. exact IH.
Qed.

(** C10.  Any number of monitor threads append their batches to the shared
    log under [log_lock], their steps interleaved in any way.  Once all have
    finished, the log is the log of the start followed by the batches, each
    one whole, its items in their order and next to each other, and the
    batches in the log are exactly the batches the threads had to append,
    in some order. *)
Theorem batches_are_appended_whole log0 work sched :
  finished (run_schedule sched (start log0 work)) ->
  exists order : list batch,
    shared_log (run_schedule sched (start log0 work)) = log0 ++ concat order /\
    order ≡ₚ concat work.
Proof.
  intros Hf.
  destruct (inv_run log0 work sched _ (inv_start log0 work)) as [_ (order & Hlog & Hperm)].
  destruct (finished_nothing_pending _ Hf) as (Hp & Hi & Ht).
  exists order. rewrite Hlog, Hp, Hi, Ht in *. rewrite !app_nil_r in *. auto.
Qed.


Lemma batches_are_appended_whole_witness :
  finished (run_schedule two_threads_schedule (start [] two_threads)) /\
  exists order : list batch,
    shared_log (run_schedule two_threads_schedule (start [] two_threads))
      = [] ++ concat order /\
    order ≡ₚ concat two_threads.
Proof.
  assert (H : finished (run_schedule two_threads_schedule (start [] two_threads)))
    by (vm_compute; repeat constructor).
  split; [exact H|].
  apply (batches_are_appended_whole [] two_threads two_threads_schedule H).
Defined.

(** In that run the second thread found the lock taken four times, and its
    batch follows the first, whole. *)
Example two_threads_log :
  shared_log (run_schedule two_threads_schedule (start [] two_threads)) =
    log_entry "A" "10.0.0.1" false (at_second 5) ++
    log_entry "B" "10.0.0.2" true (at_second 6).
Proof. vm_compute. reflexivity. Qed.

(** * More of the program *)


Lemma alter_all_cons f x rs objs :
  alter_all f (x :: rs) objs = alter_all f rs (alter f x objs).
Proof. reflexivity. Qed.

Lemma alter_all_outside f rs : forall objs r,
  r ∉ rs -> alter_all f rs objs !! r = objs !! r.
Proof.
  induction rs as [|x rs IH]; intros objs r H; [reflexivity|].
  apply not_elem_of_cons in H as [Hx Hr].
  rewrite alter_all_cons, IH by exact Hr. apply lookup_alter_ne. congruence.
Qed.

Lemma alter_all_dom f rs : forall objs r,
  is_Some (alter_all f rs objs !! r) <-> is_Some (objs !! r).
Proof.
  induction rs as [|x rs IH]; intros objs r; [reflexivity|].
  rewrite alter_all_cons, IH, lookup_alter. case_decide; [subst x|reflexivity].
  apply fmap_is_Some.
Qed.

Lemma alter_all_inside f rs :
  (forall m, f (f m) = f m) -> forall objs r me,
  r ∈ rs -> objs !! r = Some me -> alter_all f rs objs !! r = Some (f me).
Proof.
  intros Hf. induction rs as [|x rs IH]; intros objs r me Hin Hme; [inversion Hin|].
  rewrite alter_all_cons.
  destruct (decide (x = r)) as [->|Hne].
  - destruct (decide (r ∈ rs)) as [Hr|Hr].
    + rewrite (IH _ r (f me) Hr); [rewrite Hf; reflexivity|].
      rewrite lookup_alter_eq, Hme. reflexivity.
    + rewrite alter_all_outside by exact Hr. rewrite lookup_alter_eq, Hme. reflexivity.
  - apply elem_of_cons in Hin as [->|Hin]; [congruence|].
    apply IH; [exact Hin|]. rewrite lookup_alter_ne by exact Hne. exact Hme.
Qed.

Lemma for_each_set_obj f ms : forall s,
  for_each ms (fun m => set_obj m f) s =
    (Ok tt, with_objects (alter_all f ms (objects s)) s).
Proof.
  induction ms as [|m ms IH]; intros s.
  - destruct s; reflexivity.
  - cbn [for_each]. unfold mbind, M_bind. unfold set_obj at 1, modify.
    rewrite IH. destruct s; reflexivity.
Qed.

Lemma for_each_start_run ms : forall s,
  for_each ms start_monitoring s =
    (Ok tt, with_threads (threads s ++ ms)
              (with_objects (alter_all (with_is_monitoring (Some true)) ms (objects s)) s)).
Proof.
  induction ms as [|m ms IH]; intros s.
  - destruct s; cbn. rewrite app_nil_r. reflexivity.
  - cbn [for_each]. unfold mbind, M_bind. unfold start_monitoring at 1, set_obj, modify.
    unfold mbind, M_bind. rewrite IH. destruct s; cbn. rewrite <- app_assoc. reflexivity.
Qed.

Lemma for_each_stop_run ms s :
  for_each ms stop_monitoring s =
    (Ok tt, with_objects (alter_all (with_is_monitoring (Some false)) ms (objects s)) s).
Proof. apply (for_each_set_obj (with_is_monitoring (Some false))). Qed.

(** ** The handlers in closed form *)

Lemma arm_timer_run s :
  arm_timer s =
    (Ok tt, with_pending_timers (pending_timers s ++ [timers_made s])
              (with_auto_save_timer (Some (timers_made s))
                 (with_timers_made (S (timers_made s)) s))).
Proof. destruct s; reflexivity. Qed.

Lemma job_run now env s :
  job now env s =
    (Ok tt, exec arm_timer (if save_due now s then exec (_save_log env) s else s)).
Proof.
  unfold job, save_due. rewrite !bind_gets. unfold mbind at 1, M_bind at 1.
  destruct (timer_running s && _).
  - unfold mbind, M_bind, exec. rewrite save_log_run.
    destruct (save_io env); cbn [snd]; rewrite arm_timer_run; reflexivity.
  - unfold exec. cbn. rewrite arm_timer_run. reflexivity.
Qed.

Lemma job_returns now env s : job now env s = (Ok tt, exec (job now env) s).
Proof. unfold exec. rewrite job_run. reflexivity. Qed.

Lemma cancel_timer_run s :
  cancel_timer s =
    (Ok tt, match auto_save_timer s with
            | Some t => with_pending_timers (filter (fun u => u ≠ t) (pending_timers s)) s
            | None => s
            end).
Proof. unfold cancel_timer. rewrite bind_gets. destruct (auto_save_timer s); reflexivity. Qed.

Lemma start_monitoring_run now tick env s :
  _start_monitoring now tick env s =
    let s1 := if timer_running s then s
              else exec (job tick env)
                     (with_last_save_time (Some now)
                        (with_start_time (Some now) (with_timer_running true s))) in
    (Ok tt, with_threads (threads s1 ++ monitors s1)
              (with_objects
                 (alter_all (with_is_monitoring (Some true)) (monitors s1) (objects s1)) s1)).
Proof.
  unfold _start_monitoring. rewrite bind_gets. cbv zeta.
  destruct (timer_running s) eqn:Hr; cbn [negb].
  - rewrite bind_ret, bind_gets. apply for_each_start_run.
  - unfold mbind at 1, M_bind at 1. rewrite !bind_modify.
    rewrite (job_returns tick env). rewrite bind_gets. apply for_each_start_run.
Qed.

Lemma stop_monitoring_run s :
  _stop_monitoring s =
    let s1 := if timer_running s
              then exec cancel_timer (with_timer_running false s) else s in
    (Ok tt, with_objects
              (alter_all (with_is_monitoring (Some false)) (monitors s1) (objects s1)) s1).
Proof.
  unfold _stop_monitoring. rewrite bind_gets. cbv zeta.
  destruct (timer_running s) eqn:Hr.
  - unfold mbind at 1, M_bind at 1. rewrite bind_modify.
    replace (cancel_timer (with_timer_running false s))
      with (Ok tt, exec cancel_timer (with_timer_running false s))
      by (unfold exec; rewrite cancel_timer_run; reflexivity).
    rewrite bind_gets. apply for_each_stop_run.
  - rewrite bind_ret, bind_gets. apply for_each_stop_run.
Qed.

Lemma timer_fires_run t now env s :
  timer_fires t now env s =
    (Ok tt, if bool_decide (t ∈ pending_timers s)
            then exec (job now env)
                   (with_pending_timers (filter (fun u => u ≠ t) (pending_timers s)) s)
            else s).
Proof.
  unfold timer_fires. rewrite bind_gets.
  destruct (bool_decide (t ∈ pending_timers s)); [|reflexivity].
  rewrite bind_modify. apply job_returns.
Qed.

Lemma new_monitor_run a n s :
  new_monitor a n s =
    (Ok (fresh (dom (objects s))),
     with_objects (<[fresh (dom (objects s)) := DeviceMonitor_init a n]> (objects s)) s).
Proof. reflexivity. Qed.

Lemma save_json_run path io s :
  _save_json path io s =
    (Ok tt,
     match io with
     | None => with_disk (disk s ++ [WriteSettings path (settings_language s)
                                       (settings_devices s)]) s
     | Some e => with_error_log
                   (error_log s ++
                    ["Ошибка сохранения " +:+ path +:+ ": " +:+ exn_str (io_exn e)])
                   (with_disk (disk s ++ broken_write path e) s)
     end).
Proof. unfold _save_json. destruct io; destruct s; reflexivity. Qed.

Lemma save_json_returns path io s :
  _save_json path io s = (Ok tt, exec (_save_json path io) s).
Proof. unfold exec. rewrite save_json_run. reflexivity. Qed.

Lemma add_device_run ip_answer name_answer io s :
  _add_device ip_answer name_answer io s =
    (Ok tt, match add_accepts ip_answer name_answer s with
            | Some (addr, nm) => added addr nm io s
            | None => s
            end).
Proof.
  unfold _add_device, add_accepts. rewrite bind_gets.
  destruct ip_answer as [addr|]; [|reflexivity].
  destruct (Str.truthy addr); cbn [negb orb andb]; [|destruct name_answer; reflexivity].
  destruct (bool_decide (is_Some (settings_devices s !! addr))); cbn [negb andb];
    [destruct name_answer; reflexivity|].
  destruct name_answer as [nm|]; [|reflexivity].
  destruct (Str.truthy nm); cbn [negb]; [|reflexivity].
  unfold added. cbv zeta.
  unfold mbind at 1, M_bind at 1. rewrite new_monitor_run.
  rewrite !bind_modify.
  unfold mbind at 1, M_bind at 1. rewrite save_json_returns. rewrite bind_gets.
  replace (timer_running (exec _ _)) with (timer_running s)
    by (unfold exec; rewrite save_json_run; destruct io, s; reflexivity).
  destruct (timer_running s); [|reflexivity].
  unfold exec, start_monitoring, set_obj, modify, mbind, M_bind. reflexivity.
Qed.

Lemma rename_device_run self answer io s :
  _rename_device self answer io s =
    (Ok tt,
     match answer with
     | Some new_name =>
         if Str.truthy new_name then
           exec (_save_json SETTINGS_FILE io)
             (with_settings_devices
                (<[ip (objects s !!! self) := new_name]> (settings_devices s))
                (with_objects (alter (with_name new_name) self (objects s)) s))
         else s
     | None => s
     end).
Proof.
  unfold _rename_device. destruct answer as [new_name|]; [|reflexivity].
  destruct (Str.truthy new_name); [|reflexivity].
  unfold set_obj. rewrite bind_modify. unfold obj. rewrite bind_gets, bind_modify.
  rewrite save_json_returns. do 3 f_equal.
  assert (E : ip (objects (with_objects (alter (with_name new_name) self (objects s)) s)
                   !!! self) = ip (objects s !!! self)).
  { destruct s as [objs ms fl ast st tr lst sl sd lg tl th pt tm el dk].
    cbn [objects with_objects]. rewrite !lookup_total_alt, lookup_alter_eq.
    destruct (objs !! self); reflexivity. }
  rewrite E. destruct s; reflexivity.
Qed.

Lemma thread_turn_run self p s me :
  objects s !! self = Some me -> self ∈ threads s ->
  thread_turn self p s =
    (Ok tt,
     match is_monitoring me with
     | Some true =>
         apply_outcome self (cycle_outcome_of (bool_decide (self ∈ monitors s)) p me) s
     | _ => with_threads (remove_one self (threads s)) s
     end).
Proof.
  intros Hme Hlive. unfold thread_turn. rewrite bind_gets.
  rewrite bool_decide_eq_true_2 by exact Hlive.
  unfold try_except, mbind, M_bind. rewrite (monitor_turn_closed _ _ _ _ Hme).
  destruct (is_monitoring me) as [[|]|]; reflexivity.
Qed.

Lemma thread_turn_idle self p s :
  self ∉ threads s -> thread_turn self p s = (Ok tt, s).
Proof.
  intros H. unfold thread_turn. rewrite bind_gets.
  rewrite bool_decide_eq_false_2 by exact H. reflexivity.
Qed.

Lemma remove_one_perm m ms : m ∈ ms -> ms ≡ₚ m :: remove_one m ms.
Proof.
  induction ms as [|y ms IH]; intros H; [inversion H|].
  cbn [remove_one]. case_decide as E; [subst; reflexivity|].
  apply elem_of_cons in H as [->|H]; [congruence|].
  rewrite (IH H) at 1. apply perm_swap.
Qed.

Lemma submseteq_remove_one m l ms : m :: l ⊆+ ms -> l ⊆+ remove_one m ms.
Proof.
  intros H. assert (Hin : m ∈ ms).
  { eapply elem_of_submseteq; [|exact H]. left. }
  apply submseteq_cons_l in H as (k & Hk & Hl).
  rewrite (remove_one_perm m ms Hin) in Hk. apply Permutation_cons_inv in Hk.
  rewrite Hk. exact Hl.
Qed.

Lemma ip_alter_flag v m (objs : gmap ref DeviceMonitor) r :
  ip (alter (with_is_monitoring v) m objs !!! r) = ip (objs !!! r).
Proof.
  rewrite !lookup_total_alt, lookup_alter. case_decide; [subst|reflexivity].
  destruct (objs !! r); reflexivity.
Qed.

Lemma delete_loop l : forall s,
  l ⊆+ monitors s ->
  for_each l (fun m =>
    stop_monitoring m ;;
    monitors_remove m ;;
    me ← obj m ;
    modify (fun s => with_settings_devices (delete (ip me) (settings_devices s)) s)) s
  = (Ok tt, deleted l s).
Proof.
  induction l as [|m l IH]; intros s Hsub.
  - destruct s; reflexivity.
  - cbn [for_each]. unfold mbind at 1, M_bind at 1.
    assert (Hin : m ∈ monitors s) by (eapply elem_of_submseteq; [left|exact Hsub]).
    unfold stop_monitoring at 1, set_obj at 1. rewrite bind_modify.
    unfold mbind at 1, M_bind at 1. unfold monitors_remove at 1. rewrite bind_gets.
    rewrite bool_decide_eq_true_2
      by (destruct s; exact Hin).
    unfold modify at 1. unfold obj at 1. rewrite bind_gets. unfold modify at 1.
    rewrite IH by (destruct s; apply submseteq_remove_one, Hsub).
    f_equal. destruct s as [objs ms fl ast st tr lst sl sd lg tl th pt tm el dk].
    unfold deleted. cbn -[lookup_total].
    rewrite (map_ext _ (fun m0 => ip (objs !!! m0)))
      by (intros r; apply ip_alter_flag).
    rewrite ip_alter_flag. reflexivity.
Qed.

Lemma delete_devices_run selected confirmed io s :
  _delete_devices selected confirmed io s =
    (Ok tt,
     let to_del := filter (fun m => m ∈ selected) (monitors s) in
     match to_del with
     | [] => s
     | _ :: _ =>
         if confirmed then exec (_save_json SETTINGS_FILE io) (deleted to_del s) else s
     end).
Proof.
  unfold _delete_devices. rewrite bind_gets. cbv zeta.
  pose proof (sublist_submseteq _ _ (sublist_filter (fun m => m ∈ selected) (monitors s)))
    as Hsub.
  destruct (filter (fun m => m ∈ selected) (monitors s)) as [|m l] eqn:E; [reflexivity|].
  destruct confirmed; cbn [negb]; [|reflexivity].
  unfold mbind at 1, M_bind at 1. rewrite (delete_loop (m :: l) s Hsub).
  apply save_json_returns.
Qed.

(** ** The invariant of the threads and of the timers *)

Ltac fields :=
  cbn [objects monitors full_log auto_save_timer start_time timer_running
       last_save_time settings_language settings_devices lang timer_label threads
       pending_timers timers_made error_log disk
       with_objects with_monitors with_full_log with_auto_save_timer with_start_time
       with_timer_running with_last_save_time with_settings_language
       with_settings_devices with_timer_label with_threads with_pending_timers
       with_timers_made with_error_log with_disk] in *.

Lemma flag_alter_all v ms (objs : gmap ref DeviceMonitor) r :
  is_monitoring (alter_all (with_is_monitoring (Some v)) ms objs !!! r) =
    if bool_decide (r ∈ ms /\ is_Some (objs !! r)) then Some v
    else is_monitoring (objs !!! r).
Proof.
  rewrite !lookup_total_alt. case_bool_decide as E.
  - destruct E as [Hin [me Hme]].
    rewrite (alter_all_inside (with_is_monitoring (Some v)) ms (fun m => eq_refl)
               objs r me Hin Hme). reflexivity.
  - destruct (decide (r ∈ ms)) as [Hin|Hout].
    + destruct (objs !! r) as [me|] eqn:Hme; [exfalso; apply E; eauto|].
      destruct (alter_all _ ms objs !! r) as [x|] eqn:Hx; [|reflexivity].
      assert (is_Some (objs !! r)) as [? ?]
        by (apply (alter_all_dom (with_is_monitoring (Some v)) ms); eauto).
      congruence.
    + rewrite alter_all_outside by exact Hout. reflexivity.
Qed.

Lemma app_inv_empty language texts devices :
  app_inv (with_settings_devices devices (empty_app language texts)).
Proof.
  split; cbn.
  - intros r H. inversion H.
  - constructor.
  - intros r H. inversion H.
  - constructor.
  - intros t H. inversion H.
  - discriminate.
Qed.

Lemma app_inv_new a n s :
  app_inv s ->
  app_inv (with_monitors (monitors s ++ [fresh (dom (objects s))])
             (with_objects (<[fresh (dom (objects s)) := DeviceMonitor_init a n]> (objects s))
                s)).
Proof.
  intros [H1 H2 H3 H4 H5 H6].
  pose proof (is_fresh (dom (objects s))) as Hf. apply not_elem_of_dom in Hf.
  destruct s as [objs ms fl ast st tr lst sl sd lg tl th pt tm el dk]. cbn in *.
  split; cbn.
  - intros r [Hr| ->%list_elem_of_singleton]%elem_of_app.
    + rewrite lookup_insert_ne; [apply H1, Hr|].
      intros <-. destruct (H1 _ Hr) as [x Hx]. congruence.
    + rewrite lookup_insert_eq. eauto.
  - apply NoDup_app. split; [exact H2|]. split; [|apply NoDup_singleton].
    intros r Hr ->%list_elem_of_singleton. destruct (H1 _ Hr) as [x Hx]. congruence.
  - intros r Hr. specialize (H3 r Hr). rewrite lookup_total_insert_ne; [exact H3|].
    intros <-. rewrite lookup_total_alt, Hf in H3. destruct H3 as [x Hx]. discriminate.
  - exact H4.
  - exact H5.
  - exact H6.
Qed.

Lemma app_inv_init language texts devices : app_inv (App_init language texts devices).
Proof.
  unfold App_init. generalize (app_inv_empty language texts (list_to_map devices)).
  generalize (with_settings_devices (list_to_map devices) (empty_app language texts)).
  unfold _init_device_tiles.
  induction devices as [|d ds IH]; intros s Hs; [exact Hs|].
  cbn [for_each]. unfold exec, mbind at 1, M_bind at 1.
  unfold mbind at 1, M_bind at 1. rewrite new_monitor_run. unfold modify at 1.
  apply (IH _ (app_inv_new (fst d) (snd d) s Hs)).
Qed.

(** A change of the parts of the state the invariant does not read. *)
Lemma app_inv_frame s s' :
  objects s' = objects s -> monitors s' = monitors s -> threads s' = threads s ->
  pending_timers s' = pending_timers s -> timers_made s' = timers_made s ->
  timer_running s' = timer_running s -> auto_save_timer s' = auto_save_timer s ->
  (is_Some (start_time s) -> is_Some (start_time s')) ->
  (is_Some (last_save_time s) -> is_Some (last_save_time s')) ->
  app_inv s -> app_inv s'.
Proof.
  intros E1 E2 E3 E4 E5 E6 E7 E8 E9 [H1 H2 H3 H4 H5 H6].
  split; rewrite ?E1, ?E2, ?E3, ?E4, ?E5, ?E6, ?E7; try assumption.
  intros Hr. destruct (H6 Hr) as (Ha & Hb & Hc). auto.
Qed.

Lemma app_inv_save_json path io s : app_inv s -> app_inv (exec (_save_json path io) s).
Proof.
  unfold exec. rewrite save_json_run.
  apply app_inv_frame; destruct io, s; cbn; auto.
Qed.

Lemma app_inv_save_log env s : app_inv s -> app_inv (exec (_save_log env) s).
Proof.
  unfold exec. rewrite save_log_run.
  apply app_inv_frame; destruct (save_io env), s; cbn; eauto.
Qed.

(** Arming a timer makes the invariant hold where only the pending timer
    was missing. *)
Lemma app_inv_arm s :
  app_inv (with_timer_running false s) ->
  (timer_running s = true -> is_Some (start_time s) /\ is_Some (last_save_time s)) ->
  app_inv (exec arm_timer s).
Proof.
  intros [H1 H2 H3 H4 H5 _] H6. unfold exec. rewrite arm_timer_run.
  destruct s as [objs ms fl ast st tr lst sl sd lg tl th pt tm el dk]. cbn in *.
  split; cbn; try assumption.
  - apply NoDup_app. split; [exact H4|]. split; [|apply NoDup_singleton].
    intros t Ht ->%list_elem_of_singleton. specialize (H5 _ Ht). lia.
  - intros t [Ht| ->%list_elem_of_singleton]%elem_of_app; [specialize (H5 _ Ht)|]; lia.
  - intros Hr. destruct (H6 Hr) as [Ha Hb]. split; [exact Ha|]. split; [exact Hb|].
    exists tm. split; [reflexivity|]. apply elem_of_app. right. left.
Qed.

Lemma app_inv_off s : app_inv s -> app_inv (with_timer_running false s).
Proof.
  intros [H1 H2 H3 H4 H5 H6]. destruct s. split; cbn in *; try assumption. discriminate.
Qed.

Lemma app_inv_cleared st tl s :
  app_inv s ->
  app_inv (with_timer_label tl (with_timer_running false (with_start_time st s))).
Proof.
  intros [H1 H2 H3 H4 H5 H6]. destruct s. split; cbn in *; try assumption. discriminate.
Qed.

Lemma app_inv_unpend t s :
  app_inv s ->
  app_inv (with_timer_running false
             (with_pending_timers (filter (fun u => u ≠ t) (pending_timers s)) s)).
Proof.
  intros [H1 H2 H3 H4 H5 H6]. destruct s. split; cbn in *; try assumption.
  - apply NoDup_filter, H4.
  - intros u [_ Hu]%list_elem_of_filter. apply H5, Hu.
  - discriminate.
Qed.

Lemma app_inv_job now env s :
  app_inv (with_timer_running false s) ->
  (timer_running s = true -> is_Some (start_time s) /\ is_Some (last_save_time s)) ->
  app_inv (exec (job now env) s).
Proof.
  intros H1 H2. unfold exec at 1. rewrite job_run. cbn [snd].
  destruct (save_due now s); [|apply app_inv_arm; assumption].
  unfold exec at 2. rewrite save_log_run.
  apply app_inv_arm.
  - revert H1. apply app_inv_frame; destruct (save_io env), s; cbn; eauto.
  - destruct (save_io env), s; cbn in *; intros Hr; destruct (H2 Hr); eauto.
Qed.

Lemma app_inv_objects s objs' :
  (forall r, is_Some (objs' !! r) <-> is_Some (objects s !! r)) ->
  (forall r, is_Some (is_monitoring (objects s !!! r)) ->
             is_Some (is_monitoring (objs' !!! r))) ->
  app_inv s -> app_inv (with_objects objs' s).
Proof.
  intros Hdom Hflag [H1 H2 H3 H4 H5 H6]. destruct s. split; cbn in *; try assumption.
  - intros r Hr. apply Hdom, H1, Hr.
  - intros r Hr. apply Hflag, H3, Hr.
Qed.

Lemma app_inv_alter_all f ms s :
  (forall me, is_monitoring me = is_monitoring (f me) \/ is_Some (is_monitoring (f me))) ->
  app_inv s -> app_inv (with_objects (alter_all f ms (objects s)) s).
Proof.
  intros Hf. apply app_inv_objects.
  - intros r. apply alter_all_dom.
  - intros r. rewrite !lookup_total_alt. revert r.
    generalize (objects s). induction ms as [|m ms IH]; intros objs r; [auto|].
    rewrite alter_all_cons. intros H. apply IH.
    rewrite lookup_alter. case_decide; [subst m|exact H].
    destruct (objs !! r) as [me|]; cbn in *; [|exact H].
    destruct (Hf me) as [<-|Hs]; assumption.
Qed.

Lemma app_inv_start_all s :
  app_inv s ->
  app_inv (with_threads (threads s ++ monitors s)
             (with_objects
                (alter_all (with_is_monitoring (Some true)) (monitors s) (objects s)) s)).
Proof.
  intros Hs.
  pose proof (app_inv_alter_all (with_is_monitoring (Some true)) (monitors s) s
                (fun me => or_intror (ex_intro _ true eq_refl)) Hs) as [H1 H2 H3 H4 H5 H6].
  destruct Hs as [G1 _ _ _ _ _].
  destruct s. fields. split; fields; try assumption.
  intros r [Hr|Hr]%elem_of_app; [apply H3, Hr|].
  rewrite flag_alter_all, bool_decide_eq_true_2; [eauto|]. split; [exact Hr|apply G1, Hr].
Qed.

Lemma app_inv_start_one r s :
  is_Some (objects s !! r) ->
  app_inv s -> app_inv (exec (start_monitoring r) s).
Proof.
  intros Hr Hs.
  pose proof (app_inv_alter_all (with_is_monitoring (Some true)) [r] s
                (fun me => or_intror (ex_intro _ true eq_refl)) Hs) as [H1 H2 H3 H4 H5 H6].
  destruct s. fields. unfold exec, start_monitoring, set_obj, modify, mbind, M_bind.
  cbn [snd]. fields. split; fields; try assumption.
  intros x [Hx| ->%list_elem_of_singleton]%elem_of_app; [apply H3, Hx|].
  rewrite lookup_total_alt, lookup_alter_eq. destruct Hr as [me ->]. cbn. eauto.
Qed.

Lemma remove_one_sublist m ms : remove_one m ms `sublist_of` ms.
Proof.
  induction ms as [|y ms IH]; cbn; [constructor|].
  case_decide; [apply sublist_cons, reflexivity|apply sublist_skip, IH].
Qed.

Lemma remove_all_sublist l : forall ms, remove_all l ms `sublist_of` ms.
Proof.
  induction l as [|m l IH]; intros ms; [reflexivity|].
  cbn. fold (remove_all l (remove_one m ms)).
  etransitivity; [apply IH|apply remove_one_sublist].
Qed.

Lemma app_inv_sublists ms' th' s :
  ms' `sublist_of` monitors s -> th' `sublist_of` threads s ->
  app_inv s -> app_inv (with_threads th' (with_monitors ms' s)).
Proof.
  intros Hm Ht [H1 H2 H3 H4 H5 H6]. destruct s. split; cbn in *; try assumption.
  - intros r Hr. apply H1. eapply elem_of_sublist; eassumption.
  - exact (sublist_NoDup _ _ H2 Hm).
  - intros r Hr. apply H3. eapply elem_of_sublist; eassumption.
Qed.

Lemma for_each_reset_run ms : forall s,
  for_each ms reset s = (Ok tt, with_objects (alter_all reset_view ms (objects s)) s).
Proof.
  induction ms as [|m ms IH]; intros s.
  - destruct s; reflexivity.
  - cbn [for_each]. unfold mbind, M_bind. rewrite reset_run, IH. destruct s; reflexivity.
Qed.

Lemma reset_all_run s :
  _reset_all s =
    (Ok tt, with_timer_label "0:00:00:00"
              (with_timer_running false
                 (with_start_time None
                    (with_objects (alter_all reset_view (monitors s) (objects s)) s)))).
Proof.
  unfold _reset_all. rewrite bind_gets. unfold mbind at 1, M_bind at 1.
  rewrite for_each_reset_run. reflexivity.
Qed.

(** Every turn of the program keeps the invariant. *)
Lemma app_inv_step s ev : app_inv s -> app_inv (step s ev).
Proof.
  intros Hs. unfold step, exec.
  destruct ev as [now tick env| | |a b io|selected confirmed io|self answer io
                  |language io| |env|t now env|self p]; cbn [handle].
  - rewrite start_monitoring_run. cbv zeta. cbn [snd]. apply app_inv_start_all.
    destruct (timer_running s) eqn:Hr; [exact Hs|].
    apply app_inv_job.
    + revert Hs. apply app_inv_frame; destruct s; cbn in *; eauto.
    + intros _. destruct s; cbn; eauto.
  - rewrite stop_monitoring_run. cbv zeta. cbn [snd].
    apply app_inv_alter_all; [intros me; right; eexists; reflexivity|].
    destruct (timer_running s) eqn:Hr; [|exact Hs].
    unfold exec. rewrite cancel_timer_run. cbn [snd].
    destruct (auto_save_timer (with_timer_running false s)) as [t|] eqn:Ht.
    + generalize (app_inv_unpend t s Hs). apply app_inv_frame; destruct s; reflexivity || auto.
    + apply app_inv_off, Hs.
  - rewrite reset_all_run. cbn [snd].
    apply app_inv_cleared, app_inv_alter_all; [|exact Hs].
    intros me. left. reflexivity.
  - rewrite add_device_run. cbn [snd].
    destruct (add_accepts a b s) as [[addr nm]|]; [|exact Hs].
    unfold added. cbv zeta.
    assert (H1 : app_inv (exec (_save_json SETTINGS_FILE io)
      (with_settings_devices (<[addr := nm]> (settings_devices s))
         (with_monitors (monitors s ++ [fresh (dom (objects s))])
            (with_objects (<[fresh (dom (objects s)) := DeviceMonitor_init addr nm]>
                             (objects s)) s))))).
    { apply app_inv_save_json. generalize (app_inv_new addr nm s Hs).
      apply app_inv_frame; destruct s; cbn; auto. }
    destruct (timer_running s); [|exact H1].
    apply app_inv_start_one; [|exact H1].
    unfold exec. rewrite save_json_run. destruct io, s; cbn; rewrite lookup_insert_eq; eauto.
  - rewrite delete_devices_run. cbv zeta. cbn [snd].
    destruct (filter _ (monitors s)) as [|m l]; [exact Hs|].
    destruct confirmed; [|exact Hs].
    apply app_inv_save_json. unfold deleted.
    generalize (app_inv_alter_all (with_is_monitoring (Some false)) (m :: l) _
                  (fun me => or_intror (ex_intro _ false eq_refl))
                  (app_inv_sublists _ _ s (remove_all_sublist (m :: l) (monitors s))
                     (reflexivity _) Hs)).
    apply app_inv_frame; destruct s; cbn; auto.
  - rewrite rename_device_run. cbn [snd].
    destruct answer as [new_name|]; [|exact Hs].
    destruct (Str.truthy new_name); [|exact Hs].
    apply app_inv_save_json.
    generalize (app_inv_alter_all (with_name new_name) [self] s
                  (fun me => or_introl eq_refl) Hs).
    apply app_inv_frame; destruct s; cbn; auto.
  - unfold save_language. rewrite bind_modify, save_json_returns. cbn [snd].
    apply app_inv_save_json. revert Hs. apply app_inv_frame; destruct s; cbn; auto.
  - revert Hs. apply app_inv_frame; destruct s; cbn; auto.
  - unfold mbind, M_bind. rewrite save_log_run.
    generalize (app_inv_save_log env s Hs). unfold exec. rewrite save_log_run.
    destruct (save_io env); exact id.
  - rewrite timer_fires_run. cbn [snd].
    destruct (bool_decide (t ∈ pending_timers s)); [|exact Hs].
    apply app_inv_job.
    + generalize (app_inv_unpend t s Hs). apply app_inv_frame; destruct s; cbn; auto.
    + intros Hr. destruct Hs as [_ _ _ _ _ H6]. destruct s; cbn in *.
      destruct (H6 Hr) as (Ha & Hb & _). auto.
  - destruct (decide (self ∈ threads s)) as [Hlive|Hdead].
    2:{ rewrite thread_turn_idle by exact Hdead. exact Hs. }
    destruct (objects s !! self) as [me|] eqn:Hme.
    2:{ destruct Hs as [_ _ H3 _ _ _]. specialize (H3 _ Hlive).
        rewrite lookup_total_alt, Hme in H3. destruct H3 as [x Hx]. discriminate. }
    rewrite (thread_turn_run _ _ _ _ Hme Hlive). cbn [snd].
    assert (Hexit : app_inv (with_threads (remove_one self (threads s)) s)).
    { generalize (app_inv_sublists (monitors s) (remove_one self (threads s)) s
                    (reflexivity _) (remove_one_sublist _ _) Hs).
      apply app_inv_frame; destruct s; cbn; auto. }
    destruct (is_monitoring me) as [[|]|] eqn:Hflag; try exact Hexit.
    unfold apply_outcome.
    set (o := cycle_outcome_of _ p me).
    assert (H1 : app_inv (with_objects (<[self := co_me o]> (objects s)) s)).
    { apply app_inv_objects; [| |exact Hs].
      - intros r. rewrite lookup_insert. case_decide; [subst|reflexivity].
        rewrite Hme. split; eauto.
      - intros r. rewrite lookup_total_insert. case_decide; [subst|auto].
        unfold o. rewrite cycle_outcome_flag, Hflag. eauto. }
    revert H1. apply app_inv_frame; destruct s; cbn; auto.
Qed.

Lemma app_inv_run evs : forall s, app_inv s -> app_inv (run evs s).
Proof.
  induction evs as [|ev evs IH]; intros s Hs; [exact Hs|].
  cbn [run fold_left]. apply IH, app_inv_step, Hs.
Qed.

Lemma app_inv_reachable s : reachable s -> app_inv s.
Proof.
  intros (language & texts & devices & evs & ->). apply app_inv_run, app_inv_init.
Qed.

Lemma job_frame now env s :
  let s' := exec (job now env) s in
  objects s' = objects s /\ monitors s' = monitors s /\ threads s' = threads s /\
  full_log s' = full_log s /\ timer_running s' = timer_running s /\
  start_time s' = start_time s /\ settings_devices s' = settings_devices s /\
  settings_language s' = settings_language s /\ lang s' = lang s /\
  timer_label s' = timer_label s /\
  pending_timers s' = pending_timers s ++ [timers_made s] /\
  auto_save_timer s' = Some (timers_made s) /\
  timers_made s' = S (timers_made s).
Proof.
  cbv zeta. unfold exec at 1 2 3 4 5 6 7 8 9 10 11 12 13. rewrite job_run. cbn [snd].
  destruct (save_due now s).
  - unfold exec. rewrite save_log_run, arm_timer_run.
    destruct (save_io env), s; cbn; repeat split.
  - unfold exec. rewrite arm_timer_run. destruct s; cbn; repeat split.
Qed.

(** ** Start, Stop and the threads *)

Lemma start_monitoring_effect now tick env s :
  let s' := exec (_start_monitoring now tick env) s in
  fst (_start_monitoring now tick env s) = Ok tt /\
  threads s' = threads s ++ monitors s /\
  monitors s' = monitors s /\
  timer_running s' = true /\
  (forall r, r ∈ monitors s -> is_Some (objects s !! r) ->
     is_monitoring (objects s' !!! r) = Some true) /\
  (forall r, availability (objects s' !!! r) = availability (objects s !!! r)) /\
  (if timer_running s
   then start_time s' = start_time s /\ pending_timers s' = pending_timers s
   else start_time s' = Some now /\
        pending_timers s' = pending_timers s ++ [timers_made s] /\
        auto_save_timer s' = Some (timers_made s)).
Proof.
  cbv zeta. unfold exec. rewrite start_monitoring_run. cbv zeta. cbn [fst snd].
  split; [reflexivity|].
  set (s0 := with_last_save_time (Some now)
               (with_start_time (Some now) (with_timer_running true s))).
  pose proof (job_frame tick env s0) as J. cbv zeta in J.
  destruct J as (J1 & J2 & J3 & J4 & J5 & J6 & J7 & J8 & J9 & J10 & J11 & J12 & J13).
  assert (K : forall s1 : App, objects s1 = objects s -> monitors s1 = monitors s ->
    forall r, availability
       (alter_all (with_is_monitoring (Some true)) (monitors s1) (objects s1) !!! r)
       = availability (objects s !!! r)).
  { intros s1 -> -> r. rewrite !lookup_total_alt. generalize (objects s).
    induction (monitors s) as [|m ms IH]; intros objs; [reflexivity|].
    rewrite alter_all_cons, IH, lookup_alter. case_decide; [subst|reflexivity].
    destruct (objs !! r); reflexivity. }
  destruct (timer_running s) eqn:Hr.
  - destruct s as [objs ms fl ast st tr lst sl sd lg tl th pt tm el dk]. fields.
    subst tr. repeat split; try reflexivity.
    + intros r Hin Hs. rewrite flag_alter_all, bool_decide_eq_true_2; auto.
    + intros r. apply (K (mk_app objs ms fl ast st true lst sl sd lg tl th pt tm el dk));
        reflexivity.
  - set (s1 := exec (job tick env) s0) in *.
    assert (E1 : objects s1 = objects s) by (rewrite J1; destruct s; reflexivity).
    assert (E2 : monitors s1 = monitors s) by (rewrite J2; destruct s; reflexivity).
    assert (E3 : threads s1 = threads s) by (rewrite J3; destruct s; reflexivity).
    destruct s1 as [objs ms fl ast st tr lst sl sd lg tl th pt tm el dk] eqn:Es1. fields.
    subst objs ms th. repeat split; try reflexivity.
    + rewrite J5. destruct s; reflexivity.
    + intros r Hin Hs. rewrite flag_alter_all, bool_decide_eq_true_2; auto.
    + intros r. rewrite <- (K s (eq_refl _) (eq_refl _) r). reflexivity.
    + rewrite J6. destruct s; reflexivity.
    + rewrite J11. destruct s; reflexivity.
    + rewrite J12. destruct s; reflexivity.
Qed.

(** X7.  [_start_monitoring] returns, and starts one more thread for every
    monitor of the list, whether or not one runs on it already: it never
    looks for a running thread.  The flag of every listed monitor is set,
    no buffer changes, and the timer of the window runs; the time of the
    start is reset and an auto-save timer armed only if that timer was not
    running. *)
Theorem start_spawns_a_thread_per_monitor now tick env s :
  let s' := exec (_start_monitoring now tick env) s in
  fst (_start_monitoring now tick env s) = Ok tt /\
  threads s' = threads s ++ monitors s /\
  monitors s' = monitors s /\
  timer_running s' = true /\
  (forall r, r ∈ monitors s -> is_Some (objects s !! r) ->
     is_monitoring (objects s' !!! r) = Some true) /\
  (forall r, availability (objects s' !!! r) = availability (objects s !!! r)) /\
  (if timer_running s
   then start_time s' = start_time s /\ pending_timers s' = pending_timers s
   else start_time s' = Some now /\
        pending_timers s' = pending_timers s ++ [timers_made s] /\
        auto_save_timer s' = Some (timers_made s)).
Proof. exact (start_monitoring_effect now tick env s). Qed.

Lemma alter_all_flag_rest v ms (objs : gmap ref DeviceMonitor) r :
  with_is_monitoring None (alter_all (with_is_monitoring (Some v)) ms objs !!! r) =
  with_is_monitoring None (objs !!! r).
Proof.
  rewrite !lookup_total_alt. revert objs.
  induction ms as [|m ms IH]; intros objs; [reflexivity|].
  rewrite alter_all_cons, IH, lookup_alter. case_decide; [subst|reflexivity].
  destruct (objs !! r); reflexivity.
Qed.

(** X8.  [_stop_monitoring] returns and stops the timer of the window; if
    that timer was running it cancels the auto-save timer kept in
    [auto_save_timer].  It ends no thread: it clears the flag of every
    listed monitor, and changes nothing else of any object; the next turn
    of a thread on such a monitor leaves the loop, without a ping, a sample
    or a line in the log. *)
Theorem stop_takes_effect_at_the_next_turn s r p :
  let s' := exec _stop_monitoring s in
  fst (_stop_monitoring s) = Ok tt /\
  timer_running s' = false /\
  threads s' = threads s /\
  (timer_running s = true -> forall t, auto_save_timer s = Some t -> t ∉ pending_timers s') /\
  with_is_monitoring None (objects s' !!! r) = with_is_monitoring None (objects s !!! r) /\
  (r ∈ monitors s -> is_Some (objects s !! r) ->
     is_monitoring (objects s' !!! r) = Some false /\
     (r ∈ threads s ->
        step s' (EvMonitor r p) = with_threads (remove_one r (threads s')) s')).
Proof.
  cbv zeta. pose proof (stop_monitoring_run s) as Hrun. cbv zeta in Hrun.
  set (s1 := if timer_running s then exec cancel_timer (with_timer_running false s) else s)
    in *.
  replace (exec _stop_monitoring s)
    with (with_objects
            (alter_all (with_is_monitoring (Some false)) (monitors s1) (objects s1)) s1)
    by (unfold exec; rewrite Hrun; reflexivity).
  rewrite Hrun. clear Hrun. cbn [fst].
  split; [reflexivity|].
  assert (E : objects s1 = objects s /\ monitors s1 = monitors s /\ threads s1 = threads s /\
              timer_running s1 = false /\
              (timer_running s = true -> forall t, auto_save_timer s = Some t ->
                 t ∉ pending_timers s1)).
  { unfold s1. destruct (timer_running s) eqn:Hr.
    - unfold exec. rewrite cancel_timer_run.
      destruct s as [objs ms fl ast st tr lst sl sd lg tl th pt tm el dk]. fields.
      destruct ast as [t|]; cbn; repeat split; try discriminate.
      intros _ t0 [= <-] [Hne _]%list_elem_of_filter. congruence.
    - repeat split; try assumption. discriminate. }
  destruct E as (E1 & E2 & E3 & E4 & E5). clearbody s1.
  rewrite E1, E2.
  destruct s1 as [objs ms fl ast st tr lst sl sd lg tl th pt tm el dk]. fields.
  subst th tr. split; [reflexivity|]. split; [reflexivity|]. split; [exact E5|].
  split; [apply alter_all_flag_rest|].
  intros Hin Hs.
  assert (Hf : is_monitoring
      (alter_all (with_is_monitoring (Some false)) (monitors s) (objects s) !!! r)
      = Some false).
  { rewrite flag_alter_all, bool_decide_eq_true_2; auto. }
  split; [exact Hf|]. intros Hlive.
  destruct Hs as [me Hme].
  unfold step, exec. cbn [handle].
  erewrite thread_turn_run.
  2:{ fields. apply (alter_all_inside (with_is_monitoring (Some false)) _ (fun m => eq_refl)
                       _ _ _ Hin Hme). }
  2:{ exact Hlive. }
  reflexivity.
Qed.

(** X9.  In every state the program reaches, a thread runs on an object of
    the store whose flag [is_monitoring] exists: the loop of [_monitor] never
    ends by an exception.  A turn of the thread takes one cycle and the
    thread lives on while the flag is on, and the thread ends, changing
    nothing else, when the flag is off. *)
Theorem monitor_threads_end_only_when_stopped language texts devices evs r p :
  let s := run evs (App_init language texts devices) in
  r ∈ threads s ->
  exists me, objects s !! r = Some me /\
    match is_monitoring me with
    | Some true =>
        step s (EvMonitor r p) =
          apply_outcome r (cycle_outcome_of (bool_decide (r ∈ monitors s)) p me) s /\
        threads (step s (EvMonitor r p)) = threads s
    | Some false => step s (EvMonitor r p) = with_threads (remove_one r (threads s)) s
    | None => False
    end.
Proof.
  cbv zeta. intros Hlive.
  pose proof (app_inv_run evs _ (app_inv_init language texts devices)) as [_ _ H3 _ _ _].
  specialize (H3 r Hlive). set (s := run evs _) in *.
  destruct (objects s !! r) as [me|] eqn:Hme.
  2:{ rewrite lookup_total_alt, Hme in H3. destruct H3 as [? [=]]. }
  exists me. split; [reflexivity|].
  rewrite (lookup_total_correct _ _ _ Hme) in H3.
  unfold step, exec. cbn [handle]. rewrite (thread_turn_run _ _ _ _ Hme Hlive).
  destruct (is_monitoring me) as [[|]|]; cbn [snd].
  - split; [reflexivity|]. destruct s; reflexivity.
  - reflexivity.
  - destruct H3 as [? [=]].
Qed.

Lemma monitor_threads_end_only_when_stopped_witness :
  let s := run [EvStart (at_second 0) (at_second 0) demo_env]
             (App_init "ru" ∅ [("10.0.0.1", "A")]) in
  let p := PingOutput reply_lost (at_second 10) in
  0%nat ∈ threads s /\
  exists me, objects s !! 0%nat = Some me /\
    match is_monitoring me with
    | Some true =>
        step s (EvMonitor 0%nat p) =
          apply_outcome 0%nat
            (cycle_outcome_of (bool_decide (0%nat ∈ monitors s)) p me) s /\
        threads (step s (EvMonitor 0%nat p)) = threads s
    | Some false =>
        step s (EvMonitor 0%nat p) = with_threads (remove_one 0%nat (threads s)) s
    | None => False
    end.
Proof.
  cbv zeta.
  assert (H : 0%nat ∈ threads (run [EvStart (at_second 0) (at_second 0) demo_env]
                                 (App_init "ru" ∅ [("10.0.0.1", "A")])))
    by (vm_compute; left).
  split; [exact H|].
  apply (monitor_threads_end_only_when_stopped "ru" ∅ [("10.0.0.1", "A")]
           [EvStart (at_second 0) (at_second 0) demo_env] 0%nat
           (PingOutput reply_lost (at_second 10)) H).
Defined.

(** X10.  Reset followed by Start, in any state: since [_reset_all] clears
    [timer_running] and stops nothing, the Start that follows arms one more
    auto-save timer and starts one more thread for every listed monitor,
    beside the timers that were pending and the threads that were running,
    all of which stay. *)
Theorem reset_then_start_doubles s now tick env :
  let s' := run [EvResetAll; EvStart now tick env] s in
  threads s' = threads s ++ monitors s /\
  pending_timers s' = pending_timers s ++ [timers_made s] /\
  (forall t, t ∈ pending_timers s -> t ∈ pending_timers s') /\
  timer_running s' = true /\ start_time s' = Some now.
Proof.
  cbv zeta. cbn [run fold_left].
  assert (E : step s EvResetAll =
    with_timer_label "0:00:00:00"
      (with_timer_running false
         (with_start_time None
            (with_objects (alter_all reset_view (monitors s) (objects s)) s)))).
  { unfold step, exec. cbn [handle]. rewrite reset_all_run. reflexivity. }
  rewrite E. clear E. set (s1 := with_timer_label _ _).
  change (step s1 (EvStart now tick env))
    with (exec (_start_monitoring now tick env) s1).
  pose proof (start_monitoring_effect now tick env s1) as H. cbv zeta in H.
  destruct H as (_ & H2 & _ & H4 & _ & _ & H7).
  change (timer_running s1) with false in H7. destruct H7 as (H7 & H8 & H9).
  rewrite H2, H4, H7, H8.
  assert (E1 : threads s1 = threads s) by (destruct s; reflexivity).
  assert (E2 : monitors s1 = monitors s) by (destruct s; reflexivity).
  assert (E3 : pending_timers s1 = pending_timers s) by (destruct s; reflexivity).
  assert (E4 : timers_made s1 = timers_made s) by (destruct s; reflexivity).
  rewrite E1, E2, E3, E4. repeat split.
  intros t Ht. apply elem_of_app. left. exact Ht.
Qed.

(** ** The auto-save timers *)

(** X11.  In every state the program reaches the pending auto-save timers
    are distinct timers the program made, and while the timer of the window
    runs, [start_time] and [last_save_time] are set and the timer kept in
    [auto_save_timer] is pending: the auto-save never dies while monitoring
    is on. *)
Theorem a_timer_is_pending_while_monitoring language texts devices evs :
  let s := run evs (App_init language texts devices) in
  NoDup (pending_timers s) /\
  (forall t, t ∈ pending_timers s -> (t < timers_made s)%nat) /\
  (timer_running s = true ->
     is_Some (start_time s) /\ is_Some (last_save_time s) /\
     exists t, auto_save_timer s = Some t /\ t ∈ pending_timers s).
Proof.
  cbv zeta.
  destruct (app_inv_run evs _ (app_inv_init language texts devices)) as [_ _ _ H4 H5 H6].
  auto.
Qed.

(** X12.  In every state the program reaches, a pending timer that fires
    arms exactly one successor and keeps it in [auto_save_timer], whether or
    not monitoring is on: the number of pending timers is the same after the
    firing as before it, and the firing touches no monitor and no thread. *)
Theorem a_fired_timer_arms_its_successor language texts devices evs t now env :
  let s := run evs (App_init language texts devices) in
  t ∈ pending_timers s ->
  (let s' := step s (EvTimer t now env) in
   pending_timers s' = filter (fun u => u ≠ t) (pending_timers s) ++ [timers_made s] /\
   (t ∉ pending_timers s') /\
   length (pending_timers s') = length (pending_timers s) /\
   auto_save_timer s' = Some (timers_made s) /\
   timer_running s' = timer_running s /\
   objects s' = objects s /\ threads s' = threads s).
Proof.
  cbv zeta. intros Ht.
  destruct (app_inv_run evs _ (app_inv_init language texts devices)) as [_ _ _ H4 H5 _].
  set (s := run evs _) in *.
  unfold step, exec. cbn [handle]. rewrite timer_fires_run. cbn [snd].
  rewrite bool_decide_eq_true_2 by exact Ht.
  pose proof (job_frame now env
    (with_pending_timers (filter (fun u => u ≠ t) (pending_timers s)) s)) as J.
  cbv zeta in J.
  destruct J as (J1 & J2 & J3 & J4 & J5 & J6 & J7 & J8 & J9 & J10 & J11 & J12 & J13).
  rewrite J1, J3, J5, J11, J12.
  assert (E : pending_timers
                (with_pending_timers (filter (fun u => u ≠ t) (pending_timers s)) s)
              = filter (fun u => u ≠ t) (pending_timers s)) by (destruct s; reflexivity).
  assert (E2 : timers_made
                (with_pending_timers (filter (fun u => u ≠ t) (pending_timers s)) s)
              = timers_made s) by (destruct s; reflexivity).
  rewrite E, E2. split; [reflexivity|]. split; [|split].
  - intros [[Hne _]%list_elem_of_filter| ->%list_elem_of_singleton]%elem_of_app.
    + congruence.
    + specialize (H5 _ Ht). lia.
  - rewrite length_app. cbn [length].
    clear -H4 Ht. induction (pending_timers s) as [|u l IH]; [inversion Ht|].
    apply NoDup_cons in H4 as [Hu Hl]. rewrite filter_cons. case_decide as Hd.
    + apply elem_of_cons in Ht as [->|Ht]; [congruence|].
      cbn [length]. rewrite <- (IH Ht Hl). reflexivity.
    + subst u.
      replace (filter (fun u => u ≠ t) l) with l; [cbn; lia|].
      symmetry. clear -Hu. induction l as [|x l IH]; [reflexivity|].
      apply not_elem_of_cons in Hu as [Hx Hl]. rewrite filter_cons.
      rewrite decide_True by congruence. f_equal. apply IH, Hl.
  - destruct s; repeat split.
Qed.

Lemma a_fired_timer_arms_its_successor_witness :
  let s := run [EvStart (at_second 0) (at_second 0) demo_env]
             (App_init "ru" ∅ [("10.0.0.1", "A")]) in
  0%nat ∈ pending_timers s /\
  (let s' := step s (EvTimer 0%nat next_day (next_day_env None)) in
   pending_timers s' = filter (fun u => u ≠ 0%nat) (pending_timers s) ++ [timers_made s] /\
   (0%nat ∉ pending_timers s') /\
   length (pending_timers s') = length (pending_timers s) /\
   auto_save_timer s' = Some (timers_made s) /\
   timer_running s' = timer_running s /\
   objects s' = objects s /\ threads s' = threads s).
Proof.
  cbv zeta.
  assert (H : 0%nat ∈ pending_timers
                (run [EvStart (at_second 0) (at_second 0) demo_env]
                   (App_init "ru" ∅ [("10.0.0.1", "A")])))
    by (vm_compute; left).
  split; [exact H|].
  apply (a_fired_timer_arms_its_successor "ru" ∅ [("10.0.0.1", "A")]
           [EvStart (at_second 0) (at_second 0) demo_env] 0%nat next_day
           (next_day_env None) H).
Defined.

(** ** Exceptions *)






Lemma remove_one_filter m ms : NoDup ms -> remove_one m ms = filter (fun x => x ≠ m) ms.
Proof.
  induction 1 as [|y ms Hy Hnd IH]; [reflexivity|].
  cbn [remove_one]. rewrite filter_cons. destruct (decide (y = m)) as [->|Hne].
  - rewrite decide_False by (intros H; apply H; reflexivity).
    clear IH Hnd. induction ms as [|x ms IH]; [reflexivity|].
    apply not_elem_of_cons in Hy as [Hx Hy]. rewrite filter_cons.
    rewrite decide_True by congruence. f_equal. apply IH, Hy.
  - rewrite decide_True by exact Hne. f_equal. exact IH.
Qed.

Lemma remove_all_filter l : forall ms,
  NoDup ms -> remove_all l ms = filter (fun x => x ∉ l) ms.
Proof.
  induction l as [|m l IH]; intros ms Hnd.
  - cbn. symmetry. clear Hnd. induction ms as [|x ms IHm]; [reflexivity|].
    rewrite filter_cons, decide_True by (intros H; inversion H). f_equal. exact IHm.
  - change (remove_all (m :: l) ms) with (remove_all l (remove_one m ms)).
    rewrite remove_one_filter by exact Hnd.
    rewrite IH by (apply NoDup_filter, Hnd).
    rewrite list_filter_filter. apply list_filter_iff. intros x.
    rewrite not_elem_of_cons. tauto.
Qed.

Lemma pop_all_lookup keys : forall (sd : gmap string string) k,
  pop_all keys sd !! k = if decide (k ∈ keys) then None else sd !! k.
Proof.
  induction keys as [|x keys IH]; intros sd k.
  - cbn. rewrite decide_False by (intros H; inversion H). reflexivity.
  - change (pop_all (x :: keys) sd) with (pop_all keys (delete x sd)).
    rewrite IH. destruct (decide (k ∈ keys)) as [Hin|Hout].
    + rewrite decide_True by (right; exact Hin). reflexivity.
    + destruct (decide (k = x)) as [->|Hne].
      * rewrite decide_True by left. apply lookup_delete_eq.
      * rewrite decide_False by (intros [?|?]%elem_of_cons; contradiction).
        apply lookup_delete_ne. congruence.
Qed.

Lemma filter_ext_in {A} (P Q : A -> Prop) `{!forall x, Decision (P x)}
  `{!forall x, Decision (Q x)} (l : list A) :
  (forall x, x ∈ l -> (P x <-> Q x)) -> filter P l = filter Q l.
Proof.
  induction l as [|x l IH]; intros Hpq; [reflexivity|].
  rewrite !filter_cons, IH by (intros y Hy; apply Hpq; right; exact Hy).
  pose proof (Hpq x (list_elem_of_here _ _)) as Hx.
  destruct (decide (P x)) as [Hp|Hp], (decide (Q x)) as [Hq|Hq]; try reflexivity;
    exfalso; tauto.
Qed.

Lemma filter_selected_not_in (selected ms : list ref) :
  filter (fun x => x ∉ filter (fun m => m ∈ selected) ms) ms =
  filter (fun x => x ∉ selected) ms.
Proof.
  apply filter_ext_in. intros x Hx. rewrite list_elem_of_filter. tauto.
Qed.

(** X14.  [_delete_devices] in a state the program reaches.  When no listed
    monitor is selected, or the question is not confirmed, nothing changes.
    Otherwise the selected monitors leave the list, the others stay in their
    order; the flag of each selected monitor is cleared and nothing else of
    any object changes; the addresses of the selected monitors leave the
    settings; no thread is ended and the log is kept; and the settings are
    written to their file, or the failure of the write is logged. *)
Theorem delete_removes_the_selected_monitors language texts devices evs
  selected confirmed io :
  let s := run evs (App_init language texts devices) in
  let s' := step s (EvDelete selected confirmed io) in
  let to_del := filter (fun m => m ∈ selected) (monitors s) in
  match to_del with
  | [] => s' = s
  | _ :: _ =>
      if confirmed then
        monitors s' = filter (fun m => m ∉ selected) (monitors s) /\
        (forall r, r ∈ to_del -> is_monitoring (objects s' !!! r) = Some false) /\
        (forall r, r ∉ to_del -> objects s' !!! r = objects s !!! r) /\
        (forall r, with_is_monitoring None (objects s' !!! r) =
                   with_is_monitoring None (objects s !!! r)) /\
        (forall k, settings_devices s' !! k =
                     if decide (k ∈ map (fun m => ip (objects s !!! m)) to_del)
                     then None else settings_devices s !! k) /\
        threads s' = threads s /\ full_log s' = full_log s /\
        match io with
        | None =>
            disk s' = disk s ++ [WriteSettings SETTINGS_FILE (settings_language s)
                                   (settings_devices s')] /\
            error_log s' = error_log s
        | Some e =>
            disk s' = disk s ++ (if io_opened e then [WriteBroken SETTINGS_FILE] else []) /\
            error_log s' =
              error_log s ++
              ["Ошибка сохранения " +:+ SETTINGS_FILE +:+ ": " +:+ exn_str (io_exn e)]
        end
      else s' = s
  end.
Proof.
  cbv zeta.
  pose proof (app_inv_run evs _ (app_inv_init language texts devices)) as [H1 H2 _ _ _ _].
  set (s := run evs _) in *.
  unfold step, exec. cbn [handle]. rewrite delete_devices_run. cbv zeta. cbn [snd].
  destruct (filter (fun m => m ∈ selected) (monitors s)) as [|m l] eqn:El; [reflexivity|].
  destruct confirmed; [|reflexivity]. rewrite <- El.
  set (to_del := filter (fun m => m ∈ selected) (monitors s)) in *.
  unfold exec. rewrite save_json_run. unfold deleted.
  split; [|split; [|split; [|split; [|split; [|split; [|split]]]]]].
  - rewrite <- filter_selected_not_in. fold to_del.
    rewrite <- (remove_all_filter to_del _ H2). destruct io, s; reflexivity.
  - intros r Hr.
    assert (Hin : r ∈ monitors s).
    { apply list_elem_of_filter in Hr as [_ Hr]. exact Hr. }
    replace (objects _) with
      (alter_all (with_is_monitoring (Some false)) to_del (objects s))
      by (destruct io, s; reflexivity).
    rewrite flag_alter_all, bool_decide_eq_true_2; auto.
  - intros r Hr.
    replace (objects (snd _)) with
      (alter_all (with_is_monitoring (Some false)) to_del (objects s))
      by (destruct io, s; reflexivity).
    rewrite !lookup_total_alt, alter_all_outside by exact Hr. reflexivity.
  - intros r.
    replace (objects (snd _)) with
      (alter_all (with_is_monitoring (Some false)) to_del (objects s))
      by (destruct io, s; reflexivity).
    apply alter_all_flag_rest.
  - intros k. rewrite <- pop_all_lookup. destruct io, s; reflexivity.
  - destruct io, s; reflexivity.
  - destruct io, s; reflexivity.
  - destruct io, s; split; reflexivity.
Qed.



